(** * go-zed-test-toggle: alternate-file resolution

    A shallow embedding of [main.go]: project-convention detection
    ([IsGem], [IsSpec] and the lists derived from them) and the resolver
    ([IsTestFile], [findAlternateSrc], [findAlternateTest],
    [AlternateFile]).  The file system is an explicit state threaded through
    every probe, strings are byte strings, and the few functions of Go's
    standard library that the program calls ([strings.Replace],
    [filepath.Join], [filepath.Glob], [regexp]) are modelled first. *)

From Stdlib Require Import String Ascii List Bool Arith Lia.
Import ListNotations.
Open Scope string_scope.
Open Scope bool_scope.

(** ** Package [strings] *)

Module Strings.

(** [s[n:]] *)
Fixpoint skip (n : nat) (s : string) : string :=
  match n, s with
  | O, _ => s
  | S n', String _ s' => skip n' s'
  | S _, EmptyString => EmptyString
  end.

(** [strings.HasPrefix(s, pre)] *)
Definition HasPrefix (s pre : string) : bool := prefix pre s.

(** [strings.HasSuffix(s, suf)]: some tail of [s] is [suf]. *)
Fixpoint HasSuffix (s suf : string) : bool :=
  (s =? suf) ||
  match s with
  | EmptyString => false
  | String _ s' => HasSuffix s' suf
  end.

(** [strings.Contains(s, sub)]: [sub] starts at some index of [s]. *)
Fixpoint Contains (s sub : string) : bool :=
  prefix sub s ||
  match s with
  | EmptyString => false
  | String _ s' => Contains s' sub
  end.

(** [strings.Replace(s, old, new, 1)]: the first occurrence of [old] in [s],
    scanning from the left, is replaced by [new]; an empty [old] matches at
    the very start. *)
Fixpoint Replace1 (s old new : string) : string :=
  if prefix old s then new ++ skip (String.length old) s
  else match s with
       | EmptyString => EmptyString
       | String c s' => String c (Replace1 s' old new)
       end.

(** [strings.TrimSuffix(s, suf)] *)
Definition TrimSuffix (s suf : string) : string :=
  if HasSuffix s suf then substring 0 (String.length s - String.length suf) s else s.

End Strings.

(** ** Package [path/filepath] (Unix) *)

Module Filepath.

Definition Separator : ascii := "/"%char.

(** The elements of a path between separators. *)
Fixpoint splitSlash (s : string) : list string :=
  match s with
  | EmptyString => [EmptyString]
  | String c s' =>
      if (c =? Separator)%char then EmptyString :: splitSlash s'
      else match splitSlash s' with
           | x :: xs => String c x :: xs
           | [] => [String c EmptyString]
           end
  end.

(** The final path segment: what follows the last separator. *)
Definition lastSegment (s : string) : string :=
  last (splitSlash s) EmptyString.

(** The loop of [Clean]: [out] is the output buffer as a stack of elements,
    top first.  Empty elements and [.] are dropped; [..] removes the element
    before it, is dropped at the root, and is kept at the start of a path
    that is not rooted. *)
Fixpoint cleanElems (rooted : bool) (elems out : list string) : list string :=
  match elems with
  | [] => rev out
  | e :: es =>
      if e =? "" then cleanElems rooted es out
      else if e =? "." then cleanElems rooted es out
      else if e =? ".." then
        match out with
        | top :: out' =>
            if top =? ".." then cleanElems rooted es (".." :: out)
            else cleanElems rooted es out'
        | [] =>
            if rooted then cleanElems rooted es []
            else cleanElems rooted es [".."]
        end
      else cleanElems rooted es (e :: out)
  end.

(** [filepath.Clean] *)
Definition Clean (path : string) : string :=
  if path =? "" then "."
  else
    let rooted := prefix "/" path in
    let out := cleanElems rooted (splitSlash path) [] in
    if rooted then "/" ++ String.concat "/" out
    else match out with
         | [] => "."
         | _ => String.concat "/" out
         end.

(** [filepath.Join]: leading empty elements are skipped, the rest is joined
    with the separator and cleaned; no element at all gives the empty
    string. *)
Fixpoint Join (elem : list string) : string :=
  match elem with
  | [] => ""
  | e :: es => if e =? "" then Join es else Clean (String.concat "/" elem)
  end.

(** [filepath.Match] for the patterns this program builds: [*] stands for any
    run of non-separator bytes and [?] for one such byte; every other byte
    stands for itself.  A run of stars is one star.  Character classes and
    backslash escapes are not interpreted here: see [badPattern]. *)
Fixpoint Match (pattern : string) : string -> bool :=
  match pattern with
  | EmptyString =>
      fun name => match name with EmptyString => true | _ => false end
  | String p pattern' =>
      if (p =? "*")%char then
        fix star (name : string) : bool :=
          Match pattern' name ||
          match name with
          | EmptyString => false
          | String c name' => negb (c =? Separator)%char && star name'
          end
      else if (p =? "?")%char then
        fun name =>
          match name with
          | EmptyString => false
          | String c name' => negb (c =? Separator)%char && Match pattern' name'
          end
      else
        fun name =>
          match name with
          | EmptyString => false
          | String c name' => (c =? p)%char && Match pattern' name'
          end
  end.

(** The syntax this model leaves out.  Go reads a bracket as the start of a
    character class and a backslash as an escape; the model does not
    interpret them and answers [ErrBadPattern] for a pattern that has one,
    which the program takes as "no match".  None of the literal components
    the program appends contains such a byte, so this only concerns project
    roots whose name has a bracket or a backslash in it. *)
Definition backslash : string := String (ascii_of_nat 92) EmptyString.

Definition badPattern (pattern : string) : bool :=
  Strings.Contains pattern "[" || Strings.Contains pattern backslash.

Inductive error := ErrBadPattern.

End Filepath.

(** ** Package [regexp], for the patterns of [TestRegexes]

    The three patterns of the program are sequences of literal bytes and of
    the starred class [[a-zA-Z0-9_]*], closed by [$].  A [Regexp] is that
    sequence; the closing [$] (end of text, no multi-line flag) is part of
    the type's meaning. *)

Module Regexp.

Inductive Atom :=
| Chr (c : ascii)      (* a literal byte, escaped or not *)
| WordStar.            (* [a-zA-Z0-9_]* *)

Definition Regexp := list Atom.

Definition isWord (c : ascii) : bool :=
  let n := nat_of_ascii c in
  (((97 <=? n) && (n <=? 122)) || ((65 <=? n) && (n <=? 90)) ||
  ((48 <=? n) && (n <=? 57)) || (n =? 95))%nat.

Definition lits (s : string) : Regexp := map Chr (list_ascii_of_string s).

(** The pattern, then [$], matches exactly the text [s]. *)
Fixpoint matchEnd (re : Regexp) : string -> bool :=
  match re with
  | [] => fun s => match s with EmptyString => true | _ => false end
  | Chr c :: re' =>
      fun s =>
        match s with
        | EmptyString => false
        | String x s' => (x =? c)%char && matchEnd re' s'
        end
  | WordStar :: re' =>
      fix star (s : string) : bool :=
        matchEnd re' s ||
        match s with
        | EmptyString => false
        | String x s' => isWord x && star s'
        end
  end.

(** [re.MatchString(s)]: the pattern is not anchored on the left, so a match
    may start at any index. *)
Fixpoint MatchString (re : Regexp) (s : string) : bool :=
  matchEnd re s ||
  match s with
  | EmptyString => false
  | String _ s' => MatchString re s'
  end.

(** [re.ReplaceAllString(s, repl)]: the leftmost match is replaced; it runs
    to the end of the text, so there is no second one. *)
Fixpoint ReplaceAllString (re : Regexp) (s repl : string) : string :=
  if matchEnd re s then repl
  else match s with
       | EmptyString => EmptyString
       | String c s' => String c (ReplaceAllString re s' repl)
       end.

End Regexp.

Import Strings Filepath Regexp.

(** ** The file system and the probes

    A file system is the list of the names that exist (files and
    directories, each with its parents, written as cleaned paths).  A
    computation takes the file system and hands it on with its result. *)

Definition FS := list string.

Definition IO (A : Type) : Type := FS -> A * FS.

Definition ret {A} (a : A) : IO A := fun w => (a, w).

Definition bind {A B} (m : IO A) (k : A -> IO B) : IO B :=
  fun w => let (a, w') := m w in k a w'.

Notation "x <- m ;; k" := (bind m (fun x => k))
  (at level 61, m at next level, right associativity).

Definition exists_in (w : FS) (path : string) : bool :=
  existsb (String.eqb path) w.

(** [os.Stat(path)], as far as [err == nil] goes. *)
Definition Stat (path : string) : IO bool :=
  fun w => (exists_in w path, w).

(** [filepath.Glob(pattern)]: the names that match, or [ErrBadPattern]. *)
Definition Glob (pattern : string) : IO (list string * option error) :=
  fun w =>
    if badPattern pattern then ([], Some ErrBadPattern, w)
    else (filter (Match pattern) w, None, w).

(** A [for ... range] loop whose body may return from the function: the
    first [Some] ends the loop. *)
Fixpoint forRange {A B} (xs : list A) (body : A -> IO (option B))
  : IO (option B) :=
  match xs with
  | [] => ret None
  | x :: xs' =>
      r <- body x ;;
      match r with
      | Some b => ret (Some b)
      | None => forRange xs' body
      end
  end.

(** ** Project *)

Record Project := { Root : string }.

Definition NewProject (root : string) : Project :=
  {| Root := TrimSuffix root "/" |}.

Definition IsGem (p : Project) : IO bool :=
  let pattern := Join [Root p; "*.gemspec"] in
  r <- Glob pattern ;;
  match r with
  | (_, Some _) => ret false
  | (matches, None) => ret (0 <? List.length matches)%nat
  end.

Definition specClues (p : Project) : list string :=
  [ Join [Root p; "spec"; "spec_helper.rb"];
    Join [Root p; ".rspec"];
    Join [Root p; "**"; "spec"; "spec_helper.rb"] ].

Definition IsSpec (p : Project) : IO bool :=
  r <- forRange (specClues p) (fun clue =>
         r <- Glob clue ;;
         match r with
         | (_, Some _) => ret None
         | (matches, None) =>
             if (0 <? List.length matches)%nat then ret (Some true) else ret None
         end) ;;
  match r with
  | Some b => ret b
  | None => ret false
  end.

Definition SrcPaths (p : Project) : IO (list string) :=
  g <- IsGem p ;;
  if g then ret ["lib"; ""] else ret ["app"; "lib"].

Definition TestAnchor (p : Project) : IO string :=
  s <- IsSpec p ;;
  if s then ret "spec" else ret "test".

Definition TestPaths (p : Project) : IO (list string) :=
  anchor <- TestAnchor p ;;
  ret [anchor; Join [anchor; "lib"]].

(** [_spec\.rb$] *)
Definition re_spec : Regexp := lits "_spec.rb".
(** [_test\.rb$] *)
Definition re_test : Regexp := lits "_test.rb".
(** [test_[a-zA-Z0-9_]*\.rb$] *)
Definition re_test_prefix : Regexp :=
  (lits "test_" ++ [WordStar] ++ lits ".rb")%list.

Definition TestRegexes (p : Project) : IO (list Regexp) :=
  s <- IsSpec p ;;
  if s then ret [re_spec] else ret [re_test; re_test_prefix].

Definition TestSuffix (p : Project) : IO string :=
  s <- IsSpec p ;;
  if s then ret "_spec.rb" else ret "_test.rb".

Definition Testify (p : Project) (path : string) : IO string :=
  suffix <- TestSuffix p ;;
  ret (Replace1 path ".rb" suffix).

(** ** SourceFile

    The field [Project] of the source is [Project_] here, the record type
    having taken the name. *)

Record SourceFile := { Filename : string; Project_ : Project }.

Definition NewSourceFile (filename : string) (project : Project) : SourceFile :=
  {| Filename := filename; Project_ := project |}.

Definition IsTestFile (s : SourceFile) : IO bool :=
  regexes <- TestRegexes (Project_ s) ;;
  ret (existsb (fun regex => MatchString regex (Filename s)) regexes).

Definition IsController (s : SourceFile) : bool :=
  Contains (Filename s) "app/controllers/" &&
  HasSuffix (Filename s) "_controller.rb".

Definition IsRequestSpec (s : SourceFile) : bool :=
  Contains (Filename s) "spec/requests/" &&
  HasSuffix (Filename s) "_controller_spec.rb".

Definition fileExists (path : string) : IO bool := Stat path.

(** The candidate of the special case of [findAlternateSrc] (lines 157-158). *)
Definition controllerCandidate (filename : string) : string :=
  Replace1 (Replace1 filename "spec/requests/" "app/controllers/")
           "_controller_spec.rb" "_controller.rb".

(** The candidate of the special case of [findAlternateTest] (lines 191-192). *)
Definition requestSpecCandidate (filename : string) : string :=
  Replace1 (Replace1 filename "app/controllers/" "spec/requests/")
           "_controller.rb" "_controller_spec.rb".

(** The candidate of one round of the loops of [findAlternateSrc]
    (lines 173-175). *)
Definition srcCandidate (filename srcPath testPath : string) (regex : Regexp)
  : string :=
  let candidate := Replace1 filename testPath srcPath in
  ReplaceAllString regex candidate ".rb".

(** The candidate of one round of the loops of [findAlternateTest], before
    [Testify] (lines 204-211). *)
Definition testCandidate (filename testPath srcPath : string) : string :=
  if srcPath =? "" then Join [testPath; filename]
  else Replace1 filename srcPath testPath.

Definition orEmpty (r : option string) : string :=
  match r with
  | Some target => target
  | None => ""
  end.

(** [findAlternateSrc] after its special case (lines 165-184). *)
Definition findAlternateSrcGeneral (s : SourceFile) : IO string :=
  srcPaths <- SrcPaths (Project_ s) ;;
  testPaths <- TestPaths (Project_ s) ;;
  testRegexes <- TestRegexes (Project_ s) ;;
  r <- forRange srcPaths (fun srcPath =>
       forRange testPaths (fun testPath =>
       forRange testRegexes (fun regex =>
         let candidate := srcCandidate (Filename s) srcPath testPath regex in
         let target := Join [Root (Project_ s); candidate] in
         e <- fileExists target ;;
         if e then ret (Some target) else ret None))) ;;
  ret (orEmpty r).

Definition findAlternateSrc (s : SourceFile) : IO string :=
  if IsRequestSpec s then
    let candidate := controllerCandidate (Filename s) in
    let target := Join [Root (Project_ s); candidate] in
    e <- fileExists target ;;
    if e then ret target else findAlternateSrcGeneral s
  else findAlternateSrcGeneral s.

(** [findAlternateTest] after its special case (lines 199-221). *)
Definition findAlternateTestGeneral (s : SourceFile) : IO string :=
  testPaths <- TestPaths (Project_ s) ;;
  srcPaths <- SrcPaths (Project_ s) ;;
  r <- forRange testPaths (fun testPath =>
       forRange srcPaths (fun srcPath =>
         let candidate := testCandidate (Filename s) testPath srcPath in
         candidate <- Testify (Project_ s) candidate ;;
         let target := Join [Root (Project_ s); candidate] in
         e <- fileExists target ;;
         if e then ret (Some target) else ret None)) ;;
  ret (orEmpty r).

Definition findAlternateTest (s : SourceFile) : IO string :=
  if IsController s then
    let candidate := requestSpecCandidate (Filename s) in
    let target := Join [Root (Project_ s); candidate] in
    e <- fileExists target ;;
    if e then ret target else findAlternateTestGeneral s
  else findAlternateTestGeneral s.

Definition AlternateFile (s : SourceFile) : IO string :=
  t <- IsTestFile s ;;
  if t then findAlternateSrc s else findAlternateTest s.

(** ** Reading without writing *)

Definition readonly {A} (m : IO A) : Prop := forall w, snd (m w) = w.

(** ** Small projects to run the code on *)

Definition proj : Project := NewProject "/proj/".

Definition fsRspecGem : FS :=
  [ "/proj"; "/proj/.rspec"; "/proj/my_gem.gemspec";
    "/proj/lib"; "/proj/lib/user.rb";
    "/proj/spec"; "/proj/spec/lib"; "/proj/spec/lib/user_spec.rb" ].

Definition fsMinitest : FS :=
  [ "/proj"; "/proj/lib"; "/proj/lib/user.rb";
    "/proj/test"; "/proj/test/lib"; "/proj/test/lib/user_test.rb" ].


(** ** What a call computes from a file system *)

Definition isGem (p : Project) (w : FS) : bool := fst (IsGem p w).
Definition isSpec (p : Project) (w : FS) : bool := fst (IsSpec p w).
Definition srcPaths (p : Project) (w : FS) : list string := fst (SrcPaths p w).
Definition testPaths (p : Project) (w : FS) : list string := fst (TestPaths p w).
Definition testRegexes (p : Project) (w : FS) : list Regexp :=
  fst (TestRegexes p w).
Definition testSuffix (p : Project) (w : FS) : string := fst (TestSuffix p w).
Definition isTestFile (s : SourceFile) (w : FS) : bool := fst (IsTestFile s w).

(** ** The search, told as a list of candidates

    The resolver's loops, read as the spec tells them: the candidates in the
    order in which they are tried, and the first one that exists. *)

Fixpoint firstSome {A B} (f : A -> option B) (xs : list A) : option B :=
  match xs with
  | [] => None
  | x :: xs' =>
      match f x with
      | Some b => Some b
      | None => firstSome f xs'
      end
  end.

(** One probe: the candidate resolved against the root, if that exists. *)
Definition probe (root : string) (w : FS) (candidate : string)
  : option string :=
  let target := Join [root; candidate] in
  if exists_in w target then Some target else None.

Definition firstExisting (root : string) (w : FS) (candidates : list string)
  : string :=
  match find (fun c => exists_in w (Join [root; c])) candidates with
  | Some c => Join [root; c]
  | None => ""
  end.

(** Test directories outside, source directories inside. *)
Definition generalTestCandidates (filename : string)
  (testDirs srcDirs : list string) (suffix : string) : list string :=
  flat_map (fun testDir =>
    map (fun srcDir =>
           Replace1 (testCandidate filename testDir srcDir) ".rb" suffix)
        srcDirs)
    testDirs.

(** Source directories outside, test directories inside, patterns
    innermost. *)
Definition generalSrcCandidates (filename : string)
  (srcDirs testDirs : list string) (regexes : list Regexp) : list string :=
  flat_map (fun srcDir =>
    flat_map (fun testDir =>
      map (fun regex => srcCandidate filename srcDir testDir regex) regexes)
      testDirs)
    srcDirs.

(** All candidates of [findAlternateTest]: the request spec of a controller
    first, then the general rule. *)
Definition testCandidates (s : SourceFile) (w : FS) : list string :=
  (if IsController s then [requestSpecCandidate (Filename s)] else []) ++
  generalTestCandidates (Filename s)
    (testPaths (Project_ s) w) (srcPaths (Project_ s) w)
    (testSuffix (Project_ s) w).

(** All candidates of [findAlternateSrc]: the controller of a request spec
    first, then the general rule. *)
Definition srcCandidates (s : SourceFile) (w : FS) : list string :=
  (if IsRequestSpec s then [controllerCandidate (Filename s)] else []) ++
  generalSrcCandidates (Filename s)
    (srcPaths (Project_ s) w) (testPaths (Project_ s) w)
    (testRegexes (Project_ s) w).

(** A Rails application with RSpec that has both a request spec and a
    controller spec for one controller. *)
Definition fsControllers : FS :=
  [ "/proj"; "/proj/.rspec";
    "/proj/app"; "/proj/app/controllers"; "/proj/app/controllers/api";
    "/proj/app/controllers/api/v1";
    "/proj/app/controllers/api/v1/foos_controller.rb";
    "/proj/spec"; "/proj/spec/requests"; "/proj/spec/requests/api";
    "/proj/spec/requests/api/v1";
    "/proj/spec/requests/api/v1/foos_controller_spec.rb";
    "/proj/spec/controllers"; "/proj/spec/controllers/api";
    "/proj/spec/controllers/api/v1";
    "/proj/spec/controllers/api/v1/foos_controller_spec.rb" ].

(** The same controller and request spec in a project without any RSpec
    marker, so that the convention detected is [test/]. *)
Definition fsControllersMinitest : FS :=
  [ "/proj";
    "/proj/app"; "/proj/app/controllers";
    "/proj/app/controllers/users_controller.rb";
    "/proj/spec"; "/proj/spec/requests";
    "/proj/spec/requests/users_controller_spec.rb" ].

(** An application with the [test/] convention whose only test for
    [app/models/user.rb] is named with the prefix. *)
Definition fsPrefixNamedTest : FS :=
  [ "/proj";
    "/proj/app"; "/proj/app/models"; "/proj/app/models/user.rb";
    "/proj/test"; "/proj/test/models"; "/proj/test/models/test_user.rb" ].

(** The same application with a test of either name. *)
Definition fsBothNamedTests : FS :=
  "/proj/test/models/user_test.rb" :: fsPrefixNamedTest.

(** A project with the [test/] convention that has [app/user.rb] and, for
    it, the test [test/test_user.rb]. *)
Definition fsPrefixNamedTestAtTop : FS :=
  [ "/proj"; "/proj/app"; "/proj/app/user.rb";
    "/proj/test"; "/proj/test/test_user.rb" ].

(** A project whose only RSpec marker is a [spec_helper.rb] two directories
    below the root. *)
Definition fsDeepSpecHelper : FS :=
  [ "/proj"; "/proj/engines"; "/proj/engines/billing";
    "/proj/engines/billing/spec";
    "/proj/engines/billing/spec/spec_helper.rb" ].

(** The same marker one directory below the root. *)
Definition fsNestedSpecHelper : FS :=
  [ "/proj"; "/proj/billing"; "/proj/billing/spec";
    "/proj/billing/spec/spec_helper.rb" ].

(** A gem with RSpec and a single file at its root, with its spec under
    [spec/]. *)
Definition fsGemRootFile : FS :=
  [ "/proj"; "/proj/.rspec"; "/proj/my_gem.gemspec"; "/proj/my_gem.rb";
    "/proj/spec"; "/proj/spec/my_gem_spec.rb" ].

(** The same gem with a second spec file next to the source. *)
Definition fsGemRootFileShadowed : FS :=
  "/proj/my_gem_spec.rb" :: fsGemRootFile.

(** ** Names, as the spec words them *)

(** A run of bytes of the class [[a-zA-Z0-9_]]. *)
Fixpoint allWord (s : string) : bool :=
  match s with
  | EmptyString => true
  | String c s' => isWord c && allWord s'
  end.

(** The classification as the spec words it: a plain suffix or prefix test
    on the final path segment. *)
Definition simpleTestName (spec : bool) (path : string) : bool :=
  let name := lastSegment path in
  if spec then HasSuffix name "_spec.rb"
  else HasSuffix name "_test.rb" ||
       (HasPrefix name "test_" && HasSuffix name ".rb").

(** A project with the [test/] convention and nothing else of note. *)
Definition fsPlain : FS := [ "/proj"; "/proj/lib"; "/proj/test" ].

(** A test file named with the prefix that sits at the root. *)
Definition fsRootLevelTest : FS := [ "/proj"; "/proj/test_user.rb" ].

(** An application with RSpec in which [lib/user.rb] and its spec exist, and
    also a file [app/lib/user.rb]. *)
Definition fsShadowedSource : FS :=
  [ "/proj"; "/proj/.rspec";
    "/proj/lib"; "/proj/lib/user.rb";
    "/proj/spec"; "/proj/spec/lib"; "/proj/spec/lib/user_spec.rb";
    "/proj/app"; "/proj/app/lib"; "/proj/app/lib/user.rb" ].

(** ** Package [flag], for a [FlagSet] of string flags

    [Parse] takes the arguments one flag at a time, as [parseOne] does: an
    argument shorter than two bytes or without a leading dash ends the
    flags, and so does [--]; one or two dashes introduce a name; the value
    follows the first [=] that is not the first byte of the name, or is the
    next argument. *)

Module Flag.

Inductive ParseError :=
| ErrHelp
| Failf (msg : string).

(** Where the first [=] cuts a string: what is before it and after it. *)
Fixpoint cutEquals (s : string) : option (string * string) :=
  match s with
  | EmptyString => None
  | String c s' =>
      if (c =? "=")%char then Some (EmptyString, s')
      else match cutEquals s' with
           | Some (name, value) => Some (String c name, value)
           | None => None
           end
  end.

Fixpoint lookup {V} (name : string) (formal : list (string * V)) : option V :=
  match formal with
  | [] => None
  | (n, v) :: formal' => if n =? name then Some v else lookup name formal'
  end.

Section Parse.

Context {V S : Type}.
Variable formal : list (string * V).
(** [flag.Value.Set] of the variable a flag was defined with. *)
Variable set : V -> string -> S -> S.

Fixpoint Parse (args : list string) (st : S)
  : ParseError + (S * list string) :=
  match args with
  | [] => inr (st, [])
  | s :: rest =>
      if (String.length s <? 2)%nat || negb (prefix "-" s) then inr (st, args)
      else if s =? "--" then inr (st, rest)
      else
        let name := if prefix "--" s then Strings.skip 2 s
                    else Strings.skip 1 s in
        match name with
        | EmptyString => inl (Failf ("bad flag syntax: " ++ s))
        | String c name' =>
            if (c =? "-")%char || (c =? "=")%char
            then inl (Failf ("bad flag syntax: " ++ s))
            else
              let (name, value) :=
                match cutEquals name' with
                | Some (n, v) => (String c n, Some v)
                | None => (name, None)
                end in
              match lookup name formal with
              | None =>
                  if (name =? "help") || (name =? "h") then inl ErrHelp
                  else inl (Failf ("flag provided but not defined: -" ++ name))
              | Some flag =>
                  match value with
                  | Some v => Parse rest (set flag v st)
                  | None =>
                      match rest with
                      | v :: rest' => Parse rest' (set flag v st)
                      | [] =>
                          inl (Failf ("flag needs an argument: -" ++ name))
                      end
                  end
              end
        end
  end.

End Parse.

End Flag.

(** ** The command line *)

Module CLI.
Record t := { Root : string; Path : string }.
End CLI.

(** What the program writes; the wording of the usage and version texts is
    not part of the model. *)
Inductive Output :=
| Usage                       (* printUsage, on standard error *)
| VersionInfo                 (* printVersion *)
| Stderr (msg : string)       (* fmt.Fprintf(os.Stderr, ...) *)
| FlagMessage (msg : string)  (* the flag set reporting an error *)
| FlagUsage                   (* the flag set's own usage text *)
| LogFatal (msg : string).    (* log.Fatal(err) *)

(** A function that may call [os.Exit] instead of returning. *)
Inductive Started (A : Type) :=
| Exited (code : nat)
| Running (a : A).
Arguments Exited {A} code.
Arguments Running {A} a.

Inductive lookupFlag := flagRoot | flagPath.

(** The flags of the [lookup] command: two names for each variable. *)
Definition lookupCmd : list (string * lookupFlag) :=
  [ ("r", flagRoot); ("root", flagRoot); ("p", flagPath); ("path", flagPath) ].

Definition setLookupFlag (f : lookupFlag) (value : string) (cli : CLI.t)
  : CLI.t :=
  match f with
  | flagRoot => {| CLI.Root := value; CLI.Path := CLI.Path cli |}
  | flagPath => {| CLI.Root := CLI.Root cli; CLI.Path := value |}
  end.

Definition newline : string := String (ascii_of_nat 10) EmptyString.

(** [NewCLI]: [args] is [os.Args] and [getwd] what [os.Getwd] returns, the
    empty string when it fails. *)
Definition NewCLI (args : list string) (getwd : string)
  : list Output * Started CLI.t :=
  match args with
  | [] | [_] => ([Usage], Exited 1)
  | _ :: command :: rest =>
      if (command =? "-v") || (command =? "--version") ||
         (command =? "version")
      then ([VersionInfo], Exited 0)
      else if command =? "lookup" then
        match Flag.Parse lookupCmd setLookupFlag rest
                {| CLI.Root := ""; CLI.Path := "" |} with
        | inl Flag.ErrHelp => ([FlagUsage], Exited 0)
        | inl (Flag.Failf msg) => ([FlagMessage msg; FlagUsage], Exited 2)
        | inr (cli, _) =>
            ([], Running
                   {| CLI.Root := if CLI.Root cli =? "" then getwd
                                  else CLI.Root cli;
                      CLI.Path := CLI.Path cli |})
        end
      else if (command =? "help") || (command =? "-h") ||
              (command =? "--help")
      then ([Usage], Exited 0)
      else ([Stderr ("Unknown command: " ++ command ++ newline); Usage],
            Exited 1)
  end.

(** [Run].  The editor is outside the program: [zed path] stands for
    [exec.Command("zed", path).Run()], which may do anything to the file
    system and returns an error or none. *)
Definition Run (zed : string -> IO (option string)) (c : CLI.t)
  : IO (option string) :=
  if CLI.Path c =? "" then ret (Some "path is required")
  else
    let project := NewProject (CLI.Root c) in
    let sourceFile := NewSourceFile (CLI.Path c) project in
    alternateFile <- AlternateFile sourceFile ;;
    if alternateFile =? "" then ret None
    else zed alternateFile.

(** [main]: the output and the exit status of the process. *)
Definition main (zed : string -> IO (option string))
  (args : list string) (getwd : string) : IO (list Output * nat) :=
  match NewCLI args getwd with
  | (out, Exited code) => ret (out, code)
  | (out, Running cli) =>
      err <- Run zed cli ;;
      match err with
      | Some e => ret ((out ++ [LogFatal e])%list, 1)
      | None => ret (out, 0)
      end
  end.

(** ** Flags as they can be written

    One flag of [lookup] on the command line: which variable it sets, with
    one dash or two, under its short or long name, with the value as the
    next argument or after [=]. *)

Inductive Spelling := NextArgument | AfterEquals.

Record SpelledFlag := {
  flagOf : lookupFlag;
  twoDashes : bool;
  longName : bool;
  spelling : Spelling;
  flagValue : string }.

Definition flagName (f : lookupFlag) (long : bool) : string :=
  match f, long with
  | flagRoot, false => "r"
  | flagRoot, true => "root"
  | flagPath, false => "p"
  | flagPath, true => "path"
  end.

(** The arguments a flag takes up. *)
Definition spell (a : SpelledFlag) : list string :=
  let head := (if twoDashes a then "--" else "-") ++
              flagName (flagOf a) (longName a) in
  match spelling a with
  | NextArgument => [head; flagValue a]
  | AfterEquals => [head ++ "=" ++ flagValue a]
  end.

(** What a flag says, however it is written. *)
Definition assignment (a : SpelledFlag) : lookupFlag * string :=
  (flagOf a, flagValue a).

Definition assign (cli : CLI.t) (a : SpelledFlag) : CLI.t :=
  setLookupFlag (flagOf a) (flagValue a) cli.

Definition sameFlag (f g : lookupFlag) : bool :=
  match f, g with
  | flagRoot, flagRoot | flagPath, flagPath => true
  | _, _ => false
  end.

(** The value of the last flag that sets the variable [f]. *)
Fixpoint lastValue (f : lookupFlag) (flags : list SpelledFlag)
  : option string :=
  match flags with
  | [] => None
  | a :: flags' =>
      match lastValue f flags' with
      | Some v => Some v
      | None => if sameFlag (flagOf a) f then Some (flagValue a) else None
      end
  end.

(** An argument that ends the flags: shorter than two bytes, or without a
    leading dash. *)
Definition notAFlag (x : string) : bool :=
  (String.length x <? 2)%nat || negb (prefix "-" x).

(** The Minitest project of the examples: a library and its test. *)
Definition fsCalculator : FS :=
  [ "/proj"; "/proj/lib"; "/proj/lib/calculator.rb";
    "/proj/test"; "/proj/test/calculator_test.rb" ].

(** ** More notions about names *)

(** [s] without the prefix [pre], when it has that prefix. *)
Fixpoint stripPrefix (pre s : string) : option string :=
  match pre, s with
  | EmptyString, _ => Some s
  | String a pre', String b s' =>
      if (a =? b)%char then stripPrefix pre' s' else None
  | String _ _, EmptyString => None
  end.

(** A direct child of [root] whose name ends with [.gemspec]. *)
Definition isChildGemspec (root name : string) : bool :=
  match stripPrefix (root ++ "/") name with
  | Some base => negb (Contains base "/") && HasSuffix base ".gemspec"
  | None => false
  end.

(** No byte that [filepath.Match] gives a meaning to. *)
Fixpoint plainName (s : string) : bool :=
  match s with
  | EmptyString => true
  | String c s' =>
      negb ((c =? "*")%char || (c =? "?")%char || (c =? "[")%char ||
            (c =? ascii_of_nat 92)%char) && plainName s'
  end.

(** A clue finds something: the pattern is accepted and some name matches. *)
Definition clueFound (w : FS) (clue : string) : bool :=
  negb (badPattern clue) && existsb (Match clue) w.

(** No proper, non-empty end of [old] is also a beginning of [old]: two
    occurrences of [old] cannot overlap. *)
Fixpoint noOverlapFrom (old rest : string) : bool :=
  match rest with
  | EmptyString => true
  | String _ rest' => negb (prefix rest old) && noOverlapFrom old rest'
  end.

Definition noOverlap (old : string) : bool :=
  match old with
  | EmptyString => true
  | String _ rest => noOverlapFrom old rest
  end.

(** An editor that opens what it is given without complaint. *)
Definition zedOk (path : string) : IO (option string) := ret None.
(** ** The probes only read

    [Stat] and [Glob] hand the file system on as they found it, and so does
    everything built from them.  A computation that only reads is determined
    by the value it computes from the file system. *)

Create HintDb ro discriminated.

Lemma readonly_ret {A} (a : A) : readonly (ret a).
Proof. intro w. reflexivity. Qed.

Lemma readonly_bind {A B} (m : IO A) (k : A -> IO B) :
  readonly m -> (forall a, readonly (k a)) -> readonly (bind m k).
Proof.
  intros Hm Hk w. unfold bind.
  specialize (Hm w). destruct (m w) as [a w']. simpl in Hm. subst w'.
  apply Hk.
Qed.

Lemma readonly_Stat path : readonly (Stat path).
Proof. intro w. reflexivity. Qed.

Lemma readonly_Glob pattern : readonly (Glob pattern).
Proof. intro w. unfold Glob. destruct (badPattern pattern); reflexivity. Qed.

Lemma readonly_forRange {A B} (xs : list A) (body : A -> IO (option B)) :
  (forall x, readonly (body x)) -> readonly (forRange xs body).
Proof.
  intro Hbody. induction xs as [|x xs IH]; simpl.
  - apply readonly_ret.
  - apply readonly_bind; [apply Hbody|].
    intros [b|]; [apply readonly_ret | exact IH].
Qed.

#[export] Hint Resolve readonly_ret readonly_Stat readonly_Glob : ro.

(** Goals [readonly m] for a definition [m] are all solved the same way:
    through the binds and loops down to the probes. *)
Ltac ro_step :=
  match goal with
  | |- readonly (bind _ _) => apply readonly_bind
  | |- readonly (forRange _ _) => apply readonly_forRange
  | |- readonly (ret _) => apply readonly_ret
  | |- readonly (fileExists _) => apply readonly_Stat
  | |- readonly (if ?b then _ else _) => destruct b
  | |- readonly (match ?x with _ => _ end) => destruct x
  | |- forall _, _ => intro
  | |- readonly _ => solve [auto with ro]
  end.
Ltac ro := repeat ro_step.

Lemma readonly_IsGem p : readonly (IsGem p).
Proof. unfold IsGem. ro. Qed.

Lemma readonly_IsSpec p : readonly (IsSpec p).
Proof. unfold IsSpec. ro. Qed.

#[export] Hint Resolve readonly_IsGem readonly_IsSpec : ro.

Lemma readonly_SrcPaths p : readonly (SrcPaths p).
Proof. unfold SrcPaths. ro. Qed.

Lemma readonly_TestAnchor p : readonly (TestAnchor p).
Proof. unfold TestAnchor. ro. Qed.

#[export] Hint Resolve readonly_SrcPaths readonly_TestAnchor : ro.

Lemma readonly_TestPaths p : readonly (TestPaths p).
Proof. unfold TestPaths. ro. Qed.

Lemma readonly_TestRegexes p : readonly (TestRegexes p).
Proof. unfold TestRegexes. ro. Qed.

Lemma readonly_TestSuffix p : readonly (TestSuffix p).
Proof. unfold TestSuffix. ro. Qed.

#[export] Hint Resolve readonly_TestPaths readonly_TestRegexes
  readonly_TestSuffix : ro.

Lemma readonly_Testify p path : readonly (Testify p path).
Proof. unfold Testify. ro. Qed.

Lemma readonly_IsTestFile s : readonly (IsTestFile s).
Proof. unfold IsTestFile. ro. Qed.

#[export] Hint Resolve readonly_Testify readonly_IsTestFile : ro.

Lemma readonly_findAlternateSrcGeneral s : readonly (findAlternateSrcGeneral s).
Proof. unfold findAlternateSrcGeneral. ro. Qed.

Lemma readonly_findAlternateTestGeneral s :
  readonly (findAlternateTestGeneral s).
Proof. unfold findAlternateTestGeneral. ro. Qed.

#[export] Hint Resolve readonly_findAlternateSrcGeneral
  readonly_findAlternateTestGeneral : ro.

Lemma readonly_findAlternateSrc s : readonly (findAlternateSrc s).
Proof. unfold findAlternateSrc. ro. Qed.

Lemma readonly_findAlternateTest s : readonly (findAlternateTest s).
Proof. unfold findAlternateTest. ro. Qed.

#[export] Hint Resolve readonly_findAlternateSrc readonly_findAlternateTest : ro.

Lemma readonly_AlternateFile s : readonly (AlternateFile s).
Proof. unfold AlternateFile. ro. Qed.

(** Running a bind whose first part only reads. *)
Lemma bind_run {A B} (m : IO A) (k : A -> IO B) w :
  readonly m -> bind m k w = k (fst (m w)) w.
Proof.
  intro Hm. unfold bind. specialize (Hm w).
  destruct (m w) as [a w']. simpl in *. now subst.
Qed.

(** ** The lists a convention gives *)

#[global] Arguments Join : simpl never.
#[global] Arguments Clean : simpl never.
#[global] Arguments Replace1 : simpl never.
#[global] Arguments exists_in : simpl never.

Lemma SrcPaths_run p w :
  srcPaths p w = if isGem p w then ["lib"; ""] else ["app"; "lib"].
Proof.
  unfold srcPaths, SrcPaths, isGem.
  rewrite bind_run by ro. now destruct (fst (IsGem p w)).
Qed.

Lemma TestPaths_run p w :
  testPaths p w =
  if isSpec p w then ["spec"; "spec/lib"] else ["test"; "test/lib"].
Proof.
  unfold testPaths, TestPaths, TestAnchor, isSpec.
  rewrite !bind_run by ro. now destruct (fst (IsSpec p w)).
Qed.

Lemma TestRegexes_run p w :
  testRegexes p w = if isSpec p w then [re_spec] else [re_test; re_test_prefix].
Proof.
  unfold testRegexes, TestRegexes, isSpec.
  rewrite bind_run by ro. now destruct (fst (IsSpec p w)).
Qed.

Lemma TestSuffix_run p w :
  testSuffix p w = if isSpec p w then "_spec.rb" else "_test.rb".
Proof.
  unfold testSuffix, TestSuffix, isSpec.
  rewrite bind_run by ro. now destruct (fst (IsSpec p w)).
Qed.

Lemma Testify_run p path w :
  fst (Testify p path w) = Replace1 path ".rb" (testSuffix p w).
Proof.
  unfold Testify, testSuffix. now rewrite bind_run by ro.
Qed.

Lemma IsTestFile_run s w :
  isTestFile s w =
  existsb (fun regex => MatchString regex (Filename s))
          (testRegexes (Project_ s) w).
Proof.
  unfold isTestFile, IsTestFile, testRegexes.
  now rewrite bind_run by ro.
Qed.

(** ** The loops find the first candidate that exists *)

Lemma forRange_run {A B} (xs : list A) (body : A -> IO (option B)) w :
  (forall x, readonly (body x)) ->
  fst (forRange xs body w) = firstSome (fun x => fst (body x w)) xs.
Proof.
  intro Hbody. induction xs as [|x xs IH]; simpl; [reflexivity|].
  rewrite bind_run by apply Hbody.
  destruct (fst (body x w)); [reflexivity | exact IH].
Qed.

Lemma firstSome_ext {A B} (f g : A -> option B) xs :
  (forall x, f x = g x) -> firstSome f xs = firstSome g xs.
Proof.
  intro H. induction xs as [|x xs IH]; simpl; [reflexivity|].
  now rewrite H, IH.
Qed.

Lemma firstSome_app {A B} (f : A -> option B) xs ys :
  firstSome f (xs ++ ys) =
  match firstSome f xs with
  | Some b => Some b
  | None => firstSome f ys
  end.
Proof.
  induction xs as [|x xs IH]; simpl; [reflexivity|].
  destruct (f x); [reflexivity | exact IH].
Qed.

Lemma firstSome_map {A B C} (f : B -> option C) (g : A -> B) xs :
  firstSome f (map g xs) = firstSome (fun x => f (g x)) xs.
Proof.
  induction xs as [|x xs IH]; simpl; [reflexivity|].
  destruct (f (g x)); [reflexivity | exact IH].
Qed.

Lemma firstSome_flat_map {A B C} (f : B -> option C) (g : A -> list B) xs :
  firstSome f (flat_map g xs) = firstSome (fun x => firstSome f (g x)) xs.
Proof.
  induction xs as [|x xs IH]; simpl; [reflexivity|].
  rewrite firstSome_app. destruct (firstSome f (g x)); [reflexivity | exact IH].
Qed.

Lemma firstExisting_probe root w cands :
  firstExisting root w cands = orEmpty (firstSome (probe root w) cands).
Proof.
  unfold firstExisting. induction cands as [|c cs IH]; simpl; [reflexivity|].
  unfold probe at 1. cbv zeta.
  destruct (exists_in w (Join [root; c])); [reflexivity | exact IH].
Qed.

Lemma firstExisting_cons root w c cs :
  firstExisting root w (c :: cs) =
  if exists_in w (Join [root; c]) then Join [root; c]
  else firstExisting root w cs.
Proof.
  unfold firstExisting. simpl. now destruct (exists_in w (Join [root; c])).
Qed.

(** Candidates that do not exist are passed over. *)
Lemma firstExisting_skip root w pre cs :
  (forall c, In c pre -> exists_in w (Join [root; c]) = false) ->
  firstExisting root w (pre ++ cs) = firstExisting root w cs.
Proof.
  intro H. induction pre as [|c pre IH]; simpl; [reflexivity|].
  rewrite firstExisting_cons, H by (now left). apply IH.
  intros c' Hc'. apply H. now right.
Qed.

Lemma firstExisting_found root w pre c post :
  (forall x, In x pre -> exists_in w (Join [root; x]) = false) ->
  exists_in w (Join [root; c]) = true ->
  firstExisting root w (pre ++ c :: post) = Join [root; c].
Proof.
  intros Hpre Hc. rewrite firstExisting_skip by exact Hpre.
  now rewrite firstExisting_cons, Hc.
Qed.

Lemma firstExisting_none root w cands :
  (forall c, In c cands -> exists_in w (Join [root; c]) = false) ->
  firstExisting root w cands = "".
Proof.
  intro H. rewrite <- (app_nil_r cands).
  now rewrite firstExisting_skip by exact H.
Qed.

Lemma probe_body root w target_of :
  forall c : string,
    fst ((e <- fileExists (Join [root; target_of c]) ;;
          if e then ret (Some (Join [root; target_of c])) else ret None) w)
    = probe root w (target_of c).
Proof.
  intro c. rewrite bind_run by apply readonly_Stat.
  unfold probe, fileExists, Stat. simpl.
  now destruct (exists_in w (Join [root; target_of c])).
Qed.

Lemma findAlternateTestGeneral_first s w :
  fst (findAlternateTestGeneral s w) =
  firstExisting (Root (Project_ s)) w
    (generalTestCandidates (Filename s)
       (testPaths (Project_ s) w) (srcPaths (Project_ s) w)
       (testSuffix (Project_ s) w)).
Proof.
  unfold findAlternateTestGeneral.
  rewrite !bind_run by ro. simpl.
  rewrite forRange_run by ro.
  rewrite firstExisting_probe. f_equal.
  unfold generalTestCandidates. rewrite firstSome_flat_map.
  apply firstSome_ext. intro testPath.
  rewrite forRange_run by ro.
  rewrite firstSome_map. apply firstSome_ext. intro srcPath.
  rewrite bind_run by ro. rewrite Testify_run.
  apply (probe_body _ _ (fun c => c)).
Qed.

Lemma findAlternateSrcGeneral_first s w :
  fst (findAlternateSrcGeneral s w) =
  firstExisting (Root (Project_ s)) w
    (generalSrcCandidates (Filename s)
       (srcPaths (Project_ s) w) (testPaths (Project_ s) w)
       (testRegexes (Project_ s) w)).
Proof.
  unfold findAlternateSrcGeneral.
  rewrite !bind_run by ro. simpl.
  rewrite forRange_run by ro.
  rewrite firstExisting_probe. f_equal.
  unfold generalSrcCandidates. rewrite firstSome_flat_map.
  apply firstSome_ext. intro srcPath.
  rewrite forRange_run by ro.
  rewrite firstSome_flat_map. apply firstSome_ext. intro testPath.
  rewrite forRange_run by ro.
  rewrite firstSome_map. apply firstSome_ext. intro regex.
  apply (probe_body _ _ (fun c => c)).
Qed.

(** [findAlternateTest] returns the first of its candidates that exists,
    resolved against the root, and the empty string when none does. *)
Lemma findAlternateTest_first s w :
  fst (findAlternateTest s w) =
  firstExisting (Root (Project_ s)) w (testCandidates s w).
Proof.
  unfold findAlternateTest, testCandidates.
  destruct (IsController s); simpl.
  - rewrite bind_run by apply readonly_Stat.
    rewrite firstExisting_cons. unfold fileExists, Stat. simpl.
    destruct (exists_in w _); [reflexivity|].
    apply findAlternateTestGeneral_first.
  - apply findAlternateTestGeneral_first.
Qed.

(** [findAlternateSrc] likewise. *)
Lemma findAlternateSrc_first s w :
  fst (findAlternateSrc s w) =
  firstExisting (Root (Project_ s)) w (srcCandidates s w).
Proof.
  unfold findAlternateSrc, srcCandidates.
  destruct (IsRequestSpec s); simpl.
  - rewrite bind_run by apply readonly_Stat.
    rewrite firstExisting_cons. unfold fileExists, Stat. simpl.
    destruct (exists_in w _); [reflexivity|].
    apply findAlternateSrcGeneral_first.
  - apply findAlternateSrcGeneral_first.
Qed.

Lemma AlternateFile_run s w :
  fst (AlternateFile s w) =
  if isTestFile s w then fst (findAlternateSrc s w)
  else fst (findAlternateTest s w).
Proof.
  unfold AlternateFile, isTestFile. rewrite bind_run by ro.
  now destruct (fst (IsTestFile s w)).
Qed.

(** ** Facts about strings *)

Section StringFacts.

Lemma append_assoc (a b c : string) : (a ++ b) ++ c = a ++ (b ++ c).
Proof. induction a as [|x a IH]; simpl; [reflexivity | now rewrite IH]. Qed.

Lemma append_nil_r (a : string) : a ++ "" = a.
Proof. induction a as [|x a IH]; simpl; [reflexivity | now rewrite IH]. Qed.

Lemma length_append (a b : string) :
  String.length (a ++ b) = String.length a + String.length b.
Proof. induction a as [|x a IH]; simpl; [reflexivity | now rewrite IH]. Qed.

Lemma prefix_length (old s : string) :
  prefix old s = true -> String.length old <= String.length s.
Proof.
  revert s. induction old as [|c old IH]; intros s H; simpl; [lia|].
  destruct s as [|x s]; simpl in H; [discriminate|].
  destruct (ascii_dec c x); [|discriminate].
  apply IH in H. simpl. lia.
Qed.

Lemma prefix_nil (s : string) : prefix "" s = true.
Proof. now destruct s. Qed.

Lemma prefix_append (old s x : string) :
  prefix old s = true -> prefix old (s ++ x) = true.
Proof.
  revert s. induction old as [|c old IH]; intros s H; [apply prefix_nil|].
  destruct s as [|y s]; simpl in *; [discriminate|].
  destruct (ascii_dec c y); [now apply IH | discriminate].
Qed.

(** An occurrence that starts in [s] and fits in [s] does not need [x]. *)
Lemma prefix_append_inv (old s x : string) :
  prefix old (s ++ x) = true -> String.length old <= String.length s ->
  prefix old s = true.
Proof.
  revert s. induction old as [|c old IH]; intros s H Hlen; [apply prefix_nil|].
  destruct s as [|y s]; simpl in *; [lia|].
  destruct (ascii_dec c y); [apply IH; [exact H | lia] | discriminate].
Qed.

Lemma skip_append (n : nat) (s x : string) :
  n <= String.length s -> skip n (s ++ x) = skip n s ++ x.
Proof.
  revert s. induction n as [|n IH]; intros s H; [reflexivity|].
  destruct s as [|y s]; simpl in *; [lia|]. apply IH. lia.
Qed.

#[local] Arguments prefix : simpl never.
#[local] Arguments String.eqb : simpl never.

Lemma Contains_length (s sub : string) :
  Contains s sub = true -> String.length sub <= String.length s.
Proof.
  induction s as [|c s IH]; simpl; intro H.
  - rewrite orb_false_r in H. now apply prefix_length in H.
  - apply orb_true_iff in H. destruct H as [H | H].
    + apply prefix_length in H. exact H.
    + apply IH in H. lia.
Qed.

Lemma Replace1_unfold (s old new : string) :
  Replace1 s old new =
  if prefix old s then new ++ skip (String.length old) s
  else match s with
       | EmptyString => EmptyString
       | String c s' => String c (Replace1 s' old new)
       end.
Proof. destruct s; reflexivity. Qed.

(** When [old] occurs inside [d], the first occurrence in [d ++ x] is the
    one in [d]. *)
Lemma Replace1_append (d x old new : string) :
  Contains d old = true ->
  Replace1 (d ++ x) old new = Replace1 d old new ++ x.
Proof.
  induction d as [|c d IH]; intro H.
  - simpl in H. rewrite orb_false_r in H.
    rewrite (Replace1_unfold (_ ++ _)), (Replace1_unfold "").
    rewrite H, (prefix_append _ _ _ H).
    rewrite skip_append by now apply prefix_length.
    now rewrite append_assoc.
  - rewrite (Replace1_unfold (_ ++ _)), (Replace1_unfold (String c d)).
    destruct (prefix old (String c d)) eqn:Hp.
    + rewrite (prefix_append _ _ _ Hp).
      rewrite skip_append by now apply prefix_length.
      now rewrite append_assoc.
    + simpl in H. rewrite Hp in H. simpl in H.
      destruct (prefix old (String c d ++ x)) eqn:Hpx.
      * apply prefix_append_inv in Hpx; [congruence|].
        apply Contains_length in H. simpl. lia.
      * simpl. now rewrite IH.
Qed.

Lemma Replace1_absent (s old new : string) :
  Contains s old = false -> Replace1 s old new = s.
Proof.
  induction s as [|c s IH]; intro H; rewrite Replace1_unfold;
    simpl in H; apply orb_false_iff in H; destruct H as [Hp H].
  - now rewrite Hp.
  - rewrite Hp. now rewrite IH.
Qed.

Lemma HasSuffix_iff (s suf : string) :
  HasSuffix s suf = true <-> exists pre, s = pre ++ suf.
Proof.
  split.
  - induction s as [|c s IH]; simpl; intro H.
    + rewrite orb_false_r in H. apply String.eqb_eq in H. now exists "".
    + apply orb_true_iff in H. destruct H as [H | H].
      * apply String.eqb_eq in H. now exists "".
      * destruct (IH H) as [pre Hpre]. exists (String c pre).
        simpl. now rewrite Hpre.
  - intros [pre ->]. induction pre as [|c pre IH]; simpl.
    + destruct suf; simpl; [reflexivity | now rewrite String.eqb_refl].
    + rewrite IH. apply orb_true_r.
Qed.

Lemma Contains_append_r (a b sub : string) :
  Contains b sub = true -> Contains (a ++ b) sub = true.
Proof.
  intro H. induction a as [|c a IH]; simpl; [exact H|].
  rewrite IH. apply orb_true_r.
Qed.

(** Splitting at separators. *)

Lemma prefix_char (x c : ascii) (m : string) :
  prefix (String x "") (String c m) = (c =? x)%char.
Proof.
  change (prefix (String x "") (String c m))
    with (if ascii_dec x c then prefix "" m else false).
  destruct (ascii_dec x c) as [-> | Hne].
  - now rewrite prefix_nil, Ascii.eqb_refl.
  - destruct (Ascii.eqb_spec c x); [now subst | reflexivity].
Qed.

Lemma Contains_slash_cons (c : ascii) (m : string) :
  Contains (String c m) "/" = (c =? Separator)%char || Contains m "/".
Proof. simpl. now rewrite prefix_char. Qed.

Lemma splitSlash_cons (s : string) : exists x xs, splitSlash s = x :: xs.
Proof.
  induction s as [|c s [x [xs IH]]]; simpl; [now eexists; eexists|].
  destruct (c =? Separator)%char; [now eexists; eexists|].
  rewrite IH. now eexists; eexists.
Qed.

Lemma splitSlash_append (a m : string) :
  splitSlash (a ++ String Separator m) = (splitSlash a ++ splitSlash m)%list.
Proof.
  induction a as [|c a IH]; simpl; [reflexivity|].
  destruct (c =? Separator)%char; [now rewrite IH|].
  rewrite IH. destruct (splitSlash_cons a) as [x [xs ->]]. reflexivity.
Qed.

Lemma splitSlash_single (m : string) :
  Contains m "/" = false -> splitSlash m = [m].
Proof.
  induction m as [|c m IH]; intro H; [reflexivity|].
  rewrite Contains_slash_cons in H.
  apply orb_false_iff in H. destruct H as [Hc H].
  simpl. now rewrite Hc, (IH H).
Qed.

Lemma last_append_cons {A} (xs ys : list A) (y d : A) :
  last (xs ++ y :: ys) d = last (y :: ys) d.
Proof.
  induction xs as [|x xs IH]; [reflexivity|].
  simpl app. rewrite <- IH. simpl. now destruct (xs ++ y :: ys)%list eqn:E;
    [destruct xs; discriminate|].
Qed.

Lemma lastSegment_dir (a m : string) :
  Contains m "/" = false -> lastSegment (a ++ "/" ++ m) = m.
Proof.
  intro H. unfold lastSegment. simpl append.
  change "/"%char with Separator.
  rewrite splitSlash_append, (splitSlash_single m H).
  now rewrite last_append_cons.
Qed.

(** Every path is a directory part followed by its final segment. *)
Lemma lastSegment_decompose (s : string) :
  exists a, s = a ++ lastSegment s /\
            (a = "" \/ exists a', a = a' ++ "/") /\
            Contains (lastSegment s) "/" = false.
Proof.
  unfold lastSegment. induction s as [|c s [a [Hs [Ha Hm]]]].
  - exists "". simpl. auto.
  - simpl splitSlash. destruct (Ascii.eqb_spec c Separator) as [-> | Hne].
    + destruct (splitSlash_cons s) as [x [xs E]]. rewrite E in *.
      exists (String Separator a). repeat split.
      * simpl. f_equal. exact Hs.
      * right. destruct Ha as [-> | [a' ->]]; [now exists "" |].
        now exists (String Separator a').
      * exact Hm.
    + destruct (splitSlash_cons s) as [x [xs E]]. rewrite E in *.
      destruct xs as [|x' xs].
      * simpl in *. exists "". repeat split; auto.
        -- simpl. f_equal.
           destruct Ha as [-> | [a' ->]]; [exact Hs|].
           exfalso. rewrite Hs, append_assoc in E.
           change ("/" ++ x) with (String Separator x) in E.
           rewrite splitSlash_append in E.
           destruct (splitSlash_cons a') as [y [ys Ey]].
           destruct (splitSlash_cons x) as [z [zs Ez]].
           rewrite Ey, Ez in E. destruct ys; discriminate.
        -- rewrite prefix_char, Hm.
           now destruct (Ascii.eqb_spec c "/").
      * exists (String c a). repeat split.
        -- simpl. f_equal. exact Hs.
        -- right. destruct Ha as [-> | [a' ->]].
           ++ exfalso. simpl in Hs. rewrite Hs in E.
              rewrite splitSlash_single in E by exact Hm. discriminate.
           ++ now exists (String c a').
        -- exact Hm.
Qed.

Lemma Contains_slash_append (a b : string) :
  Contains (a ++ b) "/" = Contains a "/" || Contains b "/".
Proof.
  induction a as [|c a IH].
  - simpl append. now destruct b.
  - simpl append. rewrite !Contains_slash_cons, IH. apply orb_assoc.
Qed.

Lemma lastSegment_no_slash (m : string) :
  Contains m "/" = false -> lastSegment m = m.
Proof. intro H. unfold lastSegment. now rewrite splitSlash_single. Qed.

(** Appending bytes other than the separator extends the final segment. *)
Lemma lastSegment_append (x y : string) :
  Contains y "/" = false -> lastSegment (x ++ y) = lastSegment x ++ y.
Proof.
  intro Hy. destruct (lastSegment_decompose x) as [a [Hx [Ha Hm]]].
  assert (Hxy : Contains (lastSegment x ++ y) "/" = false)
    by now rewrite Contains_slash_append, Hm, Hy.
  rewrite Hx at 1. destruct Ha as [-> | [a' ->]].
  - simpl append. now apply lastSegment_no_slash.
  - rewrite !append_assoc. now apply lastSegment_dir.
Qed.

(** A suffix without separator is a suffix of the final segment. *)
Lemma HasSuffix_lastSegment (s suf : string) :
  Contains suf "/" = false ->
  HasSuffix s suf = HasSuffix (lastSegment s) suf.
Proof.
  intro Hsuf.
  destruct (HasSuffix (lastSegment s) suf) eqn:E.
  - apply HasSuffix_iff in E. destruct E as [q Hq].
    destruct (lastSegment_decompose s) as [a [Hs _]].
    apply HasSuffix_iff. exists (a ++ q).
    now rewrite append_assoc, <- Hq.
  - destruct (HasSuffix s suf) eqn:E'; [|reflexivity].
    apply HasSuffix_iff in E'. destruct E' as [pre ->].
    rewrite lastSegment_append in E by exact Hsuf.
    rewrite <- E. symmetry. apply HasSuffix_iff. now eexists.
Qed.

Lemma Contains_append_l (a b sub : string) :
  Contains a sub = true -> Contains (a ++ b) sub = true.
Proof.
  induction a as [|c a IH]; simpl; intro H.
  - rewrite orb_false_r in H.
    pose proof (prefix_append sub "" b H) as Hb. cbn [append] in Hb.
    destruct b; simpl; now rewrite Hb.
  - apply orb_true_iff in H. destruct H as [H | H].
    + pose proof (prefix_append _ _ b H) as Hb. cbn [append] in Hb.
      now rewrite Hb.
    + rewrite (IH H). apply orb_true_r.
Qed.

End StringFacts.

(** ** Facts about the patterns *)

Section RegexpFacts.

#[local] Arguments String.eqb : simpl never.
#[local] Arguments prefix : simpl never.

Lemma matchEnd_star (re : Regexp) (s : string) :
  matchEnd (WordStar :: re) s =
  matchEnd re s ||
  match s with
  | EmptyString => false
  | String x s' => isWord x && matchEnd (WordStar :: re) s'
  end.
Proof. destruct s; reflexivity. Qed.

Lemma matchEnd_chr (c : ascii) (re : Regexp) (s : string) :
  matchEnd (Chr c :: re) s = true <->
  exists s', s = String c s' /\ matchEnd re s' = true.
Proof.
  split.
  - destruct s as [|x s]; simpl; [discriminate|]. intro H.
    apply andb_true_iff in H. destruct H as [Hx H].
    apply Ascii.eqb_eq in Hx. subst x. now exists s.
  - intros [s' [-> H]]. simpl. now rewrite Ascii.eqb_refl.
Qed.

(** A pattern of literal bytes closed by [$] matches that very text. *)
Lemma matchEnd_lits (lit s : string) : matchEnd (lits lit) s = (s =? lit).
Proof.
  revert s. induction lit as [|c lit IH]; intros [|x s]; try reflexivity.
  change (matchEnd (lits (String c lit)) (String x s))
    with ((x =? c)%char && matchEnd (lits lit) s).
  rewrite IH. reflexivity.
Qed.

(** ... and is found in a text exactly when the text ends with it. *)
Lemma MatchString_lits (lit s : string) :
  MatchString (lits lit) s = HasSuffix s lit.
Proof.
  induction s as [|x s IH]; simpl; rewrite matchEnd_lits; [reflexivity|].
  now rewrite IH.
Qed.

Lemma matchEnd_word_rb (s : string) :
  matchEnd (WordStar :: lits ".rb") s = true <->
  exists word, allWord word = true /\ s = word ++ ".rb".
Proof.
  split.
  - induction s as [|x s IH]; rewrite matchEnd_star, matchEnd_lits; intro H.
    + discriminate.
    + apply orb_true_iff in H. destruct H as [H | H].
      * apply String.eqb_eq in H. exists "". now rewrite H.
      * apply andb_true_iff in H. destruct H as [Hx H].
        destruct (IH H) as [word [Hw ->]].
        exists (String x word). simpl. now rewrite Hx, Hw.
  - intros [word [Hw ->]]. induction word as [|x word IH].
    + reflexivity.
    + simpl in Hw. apply andb_true_iff in Hw. destruct Hw as [Hx Hw].
      simpl append. rewrite matchEnd_star, Hx, (IH Hw). apply orb_true_r.
Qed.

Lemma re_test_prefix_atoms :
  re_test_prefix =
  Chr "t" :: Chr "e" :: Chr "s" :: Chr "t" :: Chr "_" :: WordStar
    :: lits ".rb".
Proof. reflexivity. Qed.

(** What [test_[a-zA-Z0-9_]*\.rb$] matches from its first byte on. *)
Lemma matchEnd_test_prefix (s : string) :
  matchEnd re_test_prefix s = true <->
  exists word, allWord word = true /\ s = "test_" ++ word ++ ".rb".
Proof.
  rewrite re_test_prefix_atoms. split.
  - intro H.
    repeat (apply matchEnd_chr in H; destruct H as [? [-> H]]).
    apply matchEnd_word_rb in H. destruct H as [word [Hw ->]].
    now exists word.
  - intros [word [Hw ->]]. simpl append.
    repeat (apply matchEnd_chr; eexists; split; [reflexivity|]).
    apply matchEnd_word_rb. now exists word.
Qed.

Lemma allWord_no_slash (word : string) :
  allWord word = true -> Contains word "/" = false.
Proof.
  induction word as [|c word IH]; [reflexivity|]. simpl allWord. intro H.
  apply andb_true_iff in H. destruct H as [Hc H].
  rewrite Contains_slash_cons, (IH H), orb_false_r.
  destruct (Ascii.eqb_spec c Separator) as [-> | _];
    [discriminate | reflexivity].
Qed.

Lemma test_prefix_name_no_slash (word : string) :
  allWord word = true -> Contains ("test_" ++ word ++ ".rb") "/" = false.
Proof.
  intro H. rewrite !Contains_slash_append, (allWord_no_slash _ H).
  reflexivity.
Qed.

Lemma matchEnd_test_prefix_no_slash (s : string) :
  matchEnd re_test_prefix s = true -> Contains s "/" = false.
Proof.
  intro H. apply matchEnd_test_prefix in H. destruct H as [word [Hw ->]].
  now apply test_prefix_name_no_slash.
Qed.

Lemma MatchString_append (re : Regexp) (a m : string) :
  matchEnd re m = true -> MatchString re (a ++ m) = true.
Proof.
  intro H. induction a as [|c a IH]; simpl.
  - destruct m; simpl; now rewrite H.
  - rewrite IH. apply orb_true_r.
Qed.

Lemma MatchString_inv (re : Regexp) (s : string) :
  MatchString re s = true ->
  exists a m, s = a ++ m /\ matchEnd re m = true.
Proof.
  induction s as [|c s IH]; simpl; intro H.
  - rewrite orb_false_r in H. now exists "", "".
  - apply orb_true_iff in H. destruct H as [H | H].
    + now exists "", (String c s).
    + destruct (IH H) as [a [m [-> Hm]]]. now exists (String c a), m.
Qed.

Lemma ReplaceAllString_unfold (re : Regexp) (s repl : string) :
  ReplaceAllString re s repl =
  if matchEnd re s then repl
  else match s with
       | EmptyString => EmptyString
       | String c s' => String c (ReplaceAllString re s' repl)
       end.
Proof. destruct s; reflexivity. Qed.

(** A pattern that cannot match across a separator replaces, in a path
    whose final segment it matches, that segment and nothing else. *)
Lemma ReplaceAllString_last_segment (re : Regexp) (a m repl : string) :
  (forall x, matchEnd re x = true -> Contains x "/" = false) ->
  matchEnd re m = true ->
  ReplaceAllString re (a ++ "/" ++ m) repl = a ++ "/" ++ repl.
Proof.
  intros Hre Hm.
  assert (Hno : forall b, matchEnd re (b ++ "/" ++ m) = false).
  { intro b. destruct (matchEnd re (b ++ "/" ++ m)) eqn:E; [|reflexivity].
    apply Hre in E. rewrite Contains_slash_append in E.
    simpl append in E. rewrite Contains_slash_cons in E. simpl in E.
    now rewrite orb_true_r in E. }
  induction a as [|c a IH].
  - rewrite ReplaceAllString_unfold, (Hno ""). cbn [append].
    now rewrite ReplaceAllString_unfold, Hm.
  - rewrite ReplaceAllString_unfold, (Hno (String c a)). cbn [append].
    f_equal. exact IH.
Qed.

End RegexpFacts.

(** ** Running the code on small projects *)

Example run_rspec_src_to_test :
  fst (AlternateFile (NewSourceFile "lib/user.rb" proj) fsRspecGem)
  = "/proj/spec/lib/user_spec.rb".
Proof. vm_compute. reflexivity. Qed.

Example run_rspec_test_to_src :
  fst (AlternateFile (NewSourceFile "spec/lib/user_spec.rb" proj) fsRspecGem)
  = "/proj/lib/user.rb".
Proof. vm_compute. reflexivity. Qed.

Example run_minitest_src_to_test :
  fst (AlternateFile (NewSourceFile "lib/user.rb" proj) fsMinitest)
  = "/proj/test/lib/user_test.rb".
Proof. vm_compute. reflexivity. Qed.

Example run_minitest_test_to_src :
  fst (AlternateFile (NewSourceFile "test/lib/user_test.rb" proj) fsMinitest)
  = "/proj/lib/user.rb".
Proof. vm_compute. reflexivity. Qed.

Example run_no_alternate :
  fst (AlternateFile (NewSourceFile "lib/user.rb" proj)
         ["/proj"; "/proj/lib"; "/proj/lib/user.rb"])
  = "".
Proof. vm_compute. reflexivity. Qed.


(** * The claims *)

(** ** Determinism *)

Lemma readonly_twice {A} (m : IO A) w :
  readonly m ->
  fst (m w) = fst (m (snd (m w))) /\ snd (m (snd (m w))) = w.
Proof.
  intro H. rewrite !H. split; reflexivity.
Qed.

(** C8. Detection and resolution are deterministic in the file-system state:
    calling [IsGem], [IsSpec] or [AlternateFile] a second time, on the file
    system the first call left behind, gives the same result as the first
    call, and the file system after both calls is the one before them:
    nothing is carried from one call to the next. *)
Theorem detection_and_resolution_deterministic
  (p : Project) (s : SourceFile) (w : FS) :
  (fst (IsGem p w) = fst (IsGem p (snd (IsGem p w))) /\
   snd (IsGem p (snd (IsGem p w))) = w) /\
  (fst (IsSpec p w) = fst (IsSpec p (snd (IsSpec p w))) /\
   snd (IsSpec p (snd (IsSpec p w))) = w) /\
  (fst (AlternateFile s w) = fst (AlternateFile s (snd (AlternateFile s w))) /\
   snd (AlternateFile s (snd (AlternateFile s w))) = w).
Proof.
  repeat split; apply readonly_twice;
    auto using readonly_IsGem, readonly_IsSpec, readonly_AlternateFile.
Qed.

(** ** The special case of controllers *)

(** C5. If the path contains [app/controllers/] and ends with
    [_controller.rb], and the candidate obtained by replacing
    [app/controllers/] with [spec/requests/] and [_controller.rb] with
    [_controller_spec.rb] exists, then [findAlternateTest] returns that
    candidate (resolved against the root) whatever else exists: no candidate
    of the general rule, such as [spec/controllers/...], can take its
    place. *)
Theorem controller_request_spec_short_circuit (s : SourceFile) (w : FS) :
  Contains (Filename s) "app/controllers/" = true ->
  HasSuffix (Filename s) "_controller.rb" = true ->
  exists_in w
    (Join [Root (Project_ s);
           Replace1 (Replace1 (Filename s) "app/controllers/" "spec/requests/")
                    "_controller.rb" "_controller_spec.rb"]) = true ->
  fst (findAlternateTest s w) =
  Join [Root (Project_ s);
        Replace1 (Replace1 (Filename s) "app/controllers/" "spec/requests/")
                 "_controller.rb" "_controller_spec.rb"].
Proof.
  intros Hdir Hsuf Hex.
  rewrite findAlternateTest_first. unfold testCandidates, IsController.
  rewrite Hdir, Hsuf. simpl.
  rewrite firstExisting_cons. unfold requestSpecCandidate.
  now rewrite Hex.
Qed.

Lemma controller_request_spec_short_circuit_witness :
  let s := NewSourceFile "app/controllers/api/v1/foos_controller.rb" proj in
  exists_in fsControllers "/proj/spec/controllers/api/v1/foos_controller_spec.rb"
  = true /\
  fst (findAlternateTest s fsControllers) =
  "/proj/spec/requests/api/v1/foos_controller_spec.rb".
Proof.
  intro s. split; [vm_compute; reflexivity|].
  exact (controller_request_spec_short_circuit s fsControllers
           (eq_refl true) (eq_refl true) (eq_refl true)).
Defined.

(** C10. The special case of controllers and request specs does not depend
    on the convention detected: whatever [IsGem] and [IsSpec] answer,
    [IsController] and [IsRequestSpec] test the literal strings
    [app/controllers/], [_controller.rb], [spec/requests/] and
    [_controller_spec.rb], and the candidate of the special case is built
    from these same literals; when it exists it is what [findAlternateTest]
    (for a controller) and [findAlternateSrc] (for a request spec) return,
    also in a project whose convention is [test/]. *)
Theorem controller_special_case_ignores_convention
  (s : SourceFile) (w : FS) (gem spec : bool) :
  isGem (Project_ s) w = gem ->
  isSpec (Project_ s) w = spec ->
  IsController s =
    Contains (Filename s) "app/controllers/" &&
    HasSuffix (Filename s) "_controller.rb" /\
  IsRequestSpec s =
    Contains (Filename s) "spec/requests/" &&
    HasSuffix (Filename s) "_controller_spec.rb" /\
  (let candidate :=
     Replace1 (Replace1 (Filename s) "app/controllers/" "spec/requests/")
              "_controller.rb" "_controller_spec.rb" in
   IsController s = true ->
   exists_in w (Join [Root (Project_ s); candidate]) = true ->
   fst (findAlternateTest s w) = Join [Root (Project_ s); candidate]) /\
  (let candidate :=
     Replace1 (Replace1 (Filename s) "spec/requests/" "app/controllers/")
              "_controller_spec.rb" "_controller.rb" in
   IsRequestSpec s = true ->
   exists_in w (Join [Root (Project_ s); candidate]) = true ->
   fst (findAlternateSrc s w) = Join [Root (Project_ s); candidate]).
Proof.
  intros _ _. repeat split.
  - intros candidate Hc Hex.
    rewrite findAlternateTest_first. unfold testCandidates. rewrite Hc.
    simpl. rewrite firstExisting_cons.
    unfold requestSpecCandidate. fold candidate. now rewrite Hex.
  - intros candidate Hc Hex.
    rewrite findAlternateSrc_first. unfold srcCandidates. rewrite Hc.
    simpl. rewrite firstExisting_cons.
    unfold controllerCandidate. fold candidate. now rewrite Hex.
Qed.

Lemma controller_special_case_ignores_convention_witness :
  let s := NewSourceFile "app/controllers/users_controller.rb" proj in
  isGem proj fsControllersMinitest = false /\
  isSpec proj fsControllersMinitest = false /\
  testSuffix proj fsControllersMinitest = "_test.rb" /\
  fst (findAlternateTest s fsControllersMinitest) =
  "/proj/spec/requests/users_controller_spec.rb".
Proof.
  intro s. refine (conj eq_refl (conj eq_refl (conj eq_refl _))).
  exact (proj1 (proj2 (proj2
           (controller_special_case_ignores_convention
              s fsControllersMinitest false false eq_refl eq_refl)))
           eq_refl eq_refl).
Defined.

(** ** The general rule from source to test *)

(** C6. In the general rule of [findAlternateTest] (the special case of
    controllers does not apply, or its candidate does not exist) the
    candidates are the pairs of a test directory and a source directory,
    test directories in the outer loop and source directories in the inner
    one; the first candidate that exists is returned, resolved against the
    root, whatever comes after it; and when no candidate exists the result
    is the empty string. *)
Theorem general_rule_first_existing_candidate
  (s : SourceFile) (w : FS) (t1 t2 s1 s2 : string) :
  let root := Root (Project_ s) in
  let cand testDir srcDir :=
    Replace1 (testCandidate (Filename s) testDir srcDir) ".rb"
             (testSuffix (Project_ s) w) in
  let cands := [cand t1 s1; cand t1 s2; cand t2 s1; cand t2 s2] in
  testPaths (Project_ s) w = [t1; t2] ->
  srcPaths (Project_ s) w = [s1; s2] ->
  IsController s = false \/
  exists_in w (Join [root; requestSpecCandidate (Filename s)]) = false ->
  (forall pre c post,
      cands = (pre ++ c :: post)%list ->
      (forall x, In x pre -> exists_in w (Join [root; x]) = false) ->
      exists_in w (Join [root; c]) = true ->
      fst (findAlternateTest s w) = Join [root; c]) /\
  ((forall c, In c cands -> exists_in w (Join [root; c]) = false) ->
   fst (findAlternateTest s w) = "").
Proof.
  intros root cand cands Ht Hs Hgen.
  assert (Hrun : fst (findAlternateTest s w) = firstExisting root w cands).
  { rewrite findAlternateTest_first. unfold testCandidates.
    rewrite Ht, Hs. unfold generalTestCandidates. simpl.
    destruct Hgen as [Hc | Hex].
    - now rewrite Hc.
    - destruct (IsController s); [|reflexivity].
      simpl. rewrite firstExisting_cons. fold root. now rewrite Hex. }
  rewrite Hrun. split.
  - intros pre c post Hsplit Hpre Hc. rewrite Hsplit.
    now apply firstExisting_found.
  - apply firstExisting_none.
Qed.

Lemma general_rule_first_existing_candidate_witness :
  let s := NewSourceFile "lib/user.rb" proj in
  testPaths proj fsRspecGem = ["spec"; "spec/lib"] /\
  srcPaths proj fsRspecGem = ["lib"; ""] /\
  exists_in fsRspecGem "/proj/spec/user_spec.rb" = false /\
  exists_in fsRspecGem "/proj/spec/lib/user_spec.rb" = true /\
  fst (findAlternateTest s fsRspecGem) = "/proj/spec/lib/user_spec.rb".
Proof.
  intro s.
  refine (conj eq_refl (conj eq_refl (conj eq_refl (conj eq_refl _)))).
  refine (proj1 (general_rule_first_existing_candidate
                   s fsRspecGem "spec" "spec/lib" "lib" ""
                   eq_refl eq_refl (or_introl eq_refl))
            ["spec/user_spec.rb"] "spec/lib/user_spec.rb"
            ["spec/lib/user_spec.rb"; "spec/lib/lib/user_spec.rb"]
            eq_refl _ eq_refl).
  intros x [Hx | []]. subst x. reflexivity.
Defined.

(** ** Test files named with the prefix *)

(** C1. In an application with the [test/] convention in which
    [test/models/test_user.rb] exists and [test/models/user_test.rb] does
    not, [findAlternateTest] on [app/models/user.rb] returns the empty
    string: each of its candidates is made with the one suffix of
    [TestSuffix], and the file named with the prefix is not among them.
    When both files exist the one named with the suffix is returned. *)
Theorem prefix_named_test_is_not_found :
  let s := NewSourceFile "app/models/user.rb" proj in
  isGem proj fsPrefixNamedTest = false /\
  isSpec proj fsPrefixNamedTest = false /\
  isTestFile s fsPrefixNamedTest = false /\
  exists_in fsPrefixNamedTest "/proj/test/models/test_user.rb" = true /\
  testCandidates s fsPrefixNamedTest =
    [ "test/models/user_test.rb"; "app/models/user_test.rb";
      "test/lib/models/user_test.rb"; "app/models/user_test.rb" ] /\
  fst (findAlternateTest s fsPrefixNamedTest) = "" /\
  fst (AlternateFile s fsPrefixNamedTest) = "" /\
  fst (findAlternateTest s fsBothNamedTests) = "/proj/test/models/user_test.rb".
Proof. vm_compute. repeat split. Qed.

(** ** Detecting RSpec *)

(** C3. The third clue of [IsSpec] is the pattern
    [root/**/spec/spec_helper.rb], in which the two stars stand for one
    directory name: a [spec/spec_helper.rb] one directory below the root is
    found, one that lies two directories below is not, and [IsSpec] answers
    false for a project that has no other marker. *)
Theorem IsSpec_misses_deep_spec_helper :
  specClues proj =
    [ "/proj/spec/spec_helper.rb"; "/proj/.rspec";
      "/proj/**/spec/spec_helper.rb" ] /\
  exists_in fsDeepSpecHelper "/proj/engines/billing/spec/spec_helper.rb"
  = true /\
  fst (IsSpec proj fsDeepSpecHelper) = false /\
  fst (IsSpec proj fsNestedSpecHelper) = true.
Proof. vm_compute. repeat split. Qed.

(** ** Files at the root of a gem *)

(** C7, as the claim states it, fails: in a gem with RSpec in which both
    [my_gem_spec.rb] (at the root) and [spec/my_gem_spec.rb] exist,
    [my_gem.rb] resolves to the former, the candidate of the source
    directory [lib], which is tried before the empty one. *)
Lemma gem_root_file_shadowed :
  let s := NewSourceFile "my_gem.rb" proj in
  isGem proj fsGemRootFileShadowed = true /\
  isSpec proj fsGemRootFileShadowed = true /\
  exists_in fsGemRootFileShadowed "/proj/spec/my_gem_spec.rb" = true /\
  fst (AlternateFile s fsGemRootFileShadowed) = "/proj/my_gem_spec.rb" /\
  fst (AlternateFile s fsGemRootFileShadowed) <> "/proj/spec/my_gem_spec.rb".
Proof. vm_compute. repeat split. discriminate. Qed.

(** C7, amended. When the source directory tried is the empty string the
    candidate is the original path with the test directory joined in front,
    not a replacement inside the path; in a gem with RSpec the candidates
    for the root-level file [my_gem.rb] are, in order, [my_gem_spec.rb],
    [spec/my_gem_spec.rb], [my_gem_spec.rb] and [spec/lib/my_gem_spec.rb],
    and [my_gem.rb] resolves to [spec/my_gem_spec.rb] when that file exists
    and [my_gem_spec.rb] does not exist at the root. *)
Theorem gem_root_file_resolves_under_spec (p : Project) (w : FS) :
  let s := NewSourceFile "my_gem.rb" p in
  isGem p w = true ->
  isSpec p w = true ->
  (forall filename testDir,
      testCandidate filename testDir "" = Join [testDir; filename]) /\
  testCandidates s w =
    [ "my_gem_spec.rb"; "spec/my_gem_spec.rb";
      "my_gem_spec.rb"; "spec/lib/my_gem_spec.rb" ] /\
  (exists_in w (Join [Root p; "my_gem_spec.rb"]) = false ->
   exists_in w (Join [Root p; "spec/my_gem_spec.rb"]) = true ->
   fst (AlternateFile s w) = Join [Root p; "spec/my_gem_spec.rb"]).
Proof.
  intros s Hgem Hspec.
  assert (Hcands : testCandidates s w =
            [ "my_gem_spec.rb"; "spec/my_gem_spec.rb";
              "my_gem_spec.rb"; "spec/lib/my_gem_spec.rb" ]).
  { unfold testCandidates. simpl Project_.
    rewrite TestPaths_run, SrcPaths_run, TestSuffix_run, Hgem, Hspec.
    vm_compute. reflexivity. }
  split; [reflexivity|]. split; [exact Hcands|].
  intros Hroot Hspecfile.
  rewrite AlternateFile_run, IsTestFile_run. simpl Project_.
  rewrite TestRegexes_run, Hspec.
  change (existsb _ [re_spec]) with false. cbv iota.
  rewrite findAlternateTest_first, Hcands. simpl Project_.
  apply (firstExisting_found (Root p) w ["my_gem_spec.rb"]); [|exact Hspecfile].
  intros x [Hx | []]. now subst x.
Qed.

Lemma gem_root_file_resolves_under_spec_witness :
  isGem proj fsGemRootFile = true /\
  isSpec proj fsGemRootFile = true /\
  exists_in fsGemRootFile "/proj/my_gem_spec.rb" = false /\
  exists_in fsGemRootFile "/proj/spec/my_gem_spec.rb" = true /\
  fst (AlternateFile (NewSourceFile "my_gem.rb" proj) fsGemRootFile) =
  "/proj/spec/my_gem_spec.rb".
Proof.
  refine (conj eq_refl (conj eq_refl (conj eq_refl (conj eq_refl _)))).
  exact (proj2 (proj2 (gem_root_file_resolves_under_spec
                         proj fsGemRootFile eq_refl eq_refl))
           eq_refl eq_refl).
Defined.

(** ** Classifying a path *)

(** C4, as the claim states it, fails: under the [test/] convention the
    final segment of [test/test_foo-bar.rb] starts with [test_] and ends
    with [.rb], and the path is classified as a source file, because the
    pattern allows only bytes of [[a-zA-Z0-9_]] between the two. *)
Lemma prefix_named_file_with_dash_is_source :
  let s := NewSourceFile "test/test_foo-bar.rb" proj in
  isSpec proj fsPlain = false /\
  lastSegment (Filename s) = "test_foo-bar.rb" /\
  simpleTestName false (Filename s) = true /\
  isTestFile s fsPlain = false.
Proof. vm_compute. repeat split. Qed.

(** C4, amended. Under the descriptive-spec convention a path is a test file
    if and only if its final segment ends with [_spec.rb].  Under the other
    convention a path is a test file when its final segment ends with
    [_test.rb] or is [test_], a run of bytes of [[a-zA-Z0-9_]], then [.rb];
    and a test file always has a final segment that ends with [_test.rb] or
    with [test_], such a run, then [.rb].  Every path is classified as
    exactly one of the two, and [AlternateFile] goes by that. *)
Theorem test_file_classification (s : SourceFile) (w : FS) :
  (isSpec (Project_ s) w = true ->
   isTestFile s w = HasSuffix (lastSegment (Filename s)) "_spec.rb") /\
  (isSpec (Project_ s) w = false ->
   (HasSuffix (lastSegment (Filename s)) "_test.rb" = true ->
    isTestFile s w = true) /\
   (forall word,
       allWord word = true ->
       lastSegment (Filename s) = "test_" ++ word ++ ".rb" ->
       isTestFile s w = true) /\
   (isTestFile s w = true ->
    HasSuffix (lastSegment (Filename s)) "_test.rb" = true \/
    exists pre word,
      allWord word = true /\
      lastSegment (Filename s) = pre ++ "test_" ++ word ++ ".rb")) /\
  fst (AlternateFile s w) =
    (if isTestFile s w then fst (findAlternateSrc s w)
     else fst (findAlternateTest s w)).
Proof.
  split; [|split]; [| |apply AlternateFile_run].
  - intro Hspec. rewrite IsTestFile_run, TestRegexes_run, Hspec.
    cbn [existsb]. rewrite orb_false_r.
    unfold re_spec. rewrite MatchString_lits.
    now apply HasSuffix_lastSegment.
  - intro Hspec. rewrite IsTestFile_run, TestRegexes_run, Hspec.
    cbn [existsb]. rewrite orb_false_r.
    unfold re_test. rewrite MatchString_lits.
    rewrite (HasSuffix_lastSegment (Filename s) "_test.rb") by reflexivity.
    split; [|split].
    + now intros ->.
    + intros word Hw Hlast.
      destruct (lastSegment_decompose (Filename s)) as [a [Hs _]].
      rewrite Hs at 2. rewrite MatchString_append; [apply orb_true_r|].
      rewrite Hlast. apply matchEnd_test_prefix. now exists word.
    + intro H. apply orb_true_iff in H. destruct H as [H | H]; [now left|].
      right. apply MatchString_inv in H. destruct H as [a [m [Hs Hm]]].
      apply matchEnd_test_prefix in Hm. destruct Hm as [word [Hw ->]].
      exists (lastSegment a), word. split; [exact Hw|].
      rewrite Hs. apply lastSegment_append.
      now apply test_prefix_name_no_slash.
Qed.

Lemma test_file_classification_witness :
  isSpec proj fsRspecGem = true /\
  isTestFile (NewSourceFile "spec/lib/user_spec.rb" proj) fsRspecGem = true /\
  isSpec proj fsMinitest = false /\
  isTestFile (NewSourceFile "test/lib/user_test.rb" proj) fsMinitest = true /\
  isTestFile (NewSourceFile "test/test_user.rb" proj) fsMinitest = true.
Proof.
  refine (conj eq_refl (conj _ (conj eq_refl (conj _ _)))).
  - exact (proj1 (test_file_classification
                    (NewSourceFile "spec/lib/user_spec.rb" proj) fsRspecGem)
             eq_refl).
  - exact (proj1 (proj1 (proj2 (test_file_classification
                    (NewSourceFile "test/lib/user_test.rb" proj) fsMinitest))
             eq_refl) eq_refl).
  - exact (proj1 (proj2 (proj1 (proj2 (test_file_classification
                    (NewSourceFile "test/test_user.rb" proj) fsMinitest))
             eq_refl)) "user" eq_refl eq_refl).
Defined.

(** ** From a test named with the prefix back to its source *)

(** C9, as the claim states it, fails: the final segment of the root-level
    test file [test_user.rb] has the form [test_<word>.rb], yet the
    candidate that [findAlternateSrc] makes of it with the prefix pattern
    for the pair ([app], [test]) is [app_user.rb], because the test
    directory is replaced inside the file name before the pattern is
    applied. *)
Lemma prefix_pattern_candidate_at_root :
  let s := NewSourceFile "test_user.rb" proj in
  isGem proj fsRootLevelTest = false /\
  isSpec proj fsRootLevelTest = false /\
  isTestFile s fsRootLevelTest = true /\
  lastSegment (Filename s) = "test_" ++ "user" ++ ".rb" /\
  allWord "user" = true /\
  srcCandidate (Filename s) "app" "test" re_test_prefix = "app_user.rb" /\
  nth_error (srcCandidates s fsRootLevelTest) 1 = Some "app_user.rb" /\
  lastSegment "app_user.rb" <> ".rb".
Proof. vm_compute. repeat split. discriminate. Qed.

(** What the resolver does with such a test under [test/]: none of its
    eight candidates is the source [app/user.rb], and the first one that
    exists is the test file itself, the candidate of the test directory
    [test/lib] (absent from the path) and the suffix pattern (no match). *)
Example prefix_named_test_resolves_to_itself :
  let t := NewSourceFile "test/test_user.rb" proj in
  exists_in fsPrefixNamedTestAtTop "/proj/app/user.rb" = true /\
  srcCandidates t fsPrefixNamedTestAtTop =
    [ "app/test_user.rb"; "app/.rb"; "test/test_user.rb"; "test/.rb";
      "lib/test_user.rb"; "lib/.rb"; "test/test_user.rb"; "test/.rb" ] /\
  fst (AlternateFile t fsPrefixNamedTestAtTop) = "/proj/test/test_user.rb".
Proof. vm_compute. repeat split. Qed.

(** C9, amended. For a path [dir/test_<word>.rb], with [word] a run of bytes
    of [[a-zA-Z0-9_]], and a test directory that occurs in [dir] or does not
    occur in the path at all, the candidate that the loop of
    [findAlternateSrc] makes with the prefix pattern is [dir], with the test
    directory replaced by the source directory, followed by [/.rb]: the
    whole final segment is replaced by the bare extension, and the word is
    lost (from [test/test_user.rb]: [app/.rb], not [app/user.rb]). *)
Theorem prefix_pattern_candidate_is_bare_extension
  (dir word srcPath testPath : string) :
  let path := dir ++ "/" ++ "test_" ++ word ++ ".rb" in
  allWord word = true ->
  Contains dir testPath = true \/ Contains path testPath = false ->
  lastSegment path = "test_" ++ word ++ ".rb" /\
  srcCandidate path srcPath testPath re_test_prefix =
    Replace1 dir testPath srcPath ++ "/.rb" /\
  lastSegment (srcCandidate path srcPath testPath re_test_prefix) = ".rb".
Proof.
  intros path Hw Hdir.
  assert (Hname : Contains ("test_" ++ word ++ ".rb") "/" = false)
    by now apply test_prefix_name_no_slash.
  assert (Hcand : srcCandidate path srcPath testPath re_test_prefix =
                  Replace1 dir testPath srcPath ++ "/.rb").
  { unfold srcCandidate.
    assert (Hrep : Replace1 path testPath srcPath =
                   Replace1 dir testPath srcPath ++ "/" ++
                   "test_" ++ word ++ ".rb").
    { destruct Hdir as [Hin | Hout].
      - unfold path. now apply Replace1_append.
      - rewrite (Replace1_absent path) by exact Hout.
        rewrite Replace1_absent; [reflexivity|].
        destruct (Contains dir testPath) eqn:E; [|reflexivity].
        apply (Contains_append_l dir ("/" ++ "test_" ++ word ++ ".rb")) in E.
        unfold path in Hout. congruence. }
    rewrite Hrep.
    apply (ReplaceAllString_last_segment re_test_prefix
             (Replace1 dir testPath srcPath) ("test_" ++ word ++ ".rb") ".rb").
    - exact matchEnd_test_prefix_no_slash.
    - apply matchEnd_test_prefix. now exists word. }
  split; [|split].
  - unfold path. now apply lastSegment_dir.
  - exact Hcand.
  - rewrite Hcand. now apply (lastSegment_dir _ ".rb").
Qed.

Lemma prefix_pattern_candidate_is_bare_extension_witness :
  allWord "user" = true /\
  Contains "test" "test" = true /\
  srcCandidate "test/test_user.rb" "app" "test" re_test_prefix = "app/.rb" /\
  lastSegment (srcCandidate "test/test_user.rb" "app" "test" re_test_prefix)
  = ".rb".
Proof.
  refine (conj eq_refl (conj eq_refl _)).
  exact (proj2 (prefix_pattern_candidate_is_bare_extension
                  "test" "user" "app" "test" eq_refl (or_introl eq_refl))).
Defined.

(** ** Toggling twice *)

(** C2. On the Minitest layout of the examples, [lib/calculator.rb] with
    its test [test/calculator_test.rb] and nothing else, the source resolves
    to the test, and the test resolves to itself instead of the source.  Of
    the source candidates made of the test path, the fourth, for the pair
    ([app], [test/lib]) and the prefix pattern, is the test path unchanged
    (the test directory [test/lib] does not occur in it and the pattern does
    not match), and that file exists; [lib/calculator.rb], the candidate of
    the pair ([lib], [test]) and the suffix pattern, comes fifth and is not
    reached.  Toggling twice does not return to the start. *)
Theorem round_trip_fails_on_documented_layout :
  let s := NewSourceFile "lib/calculator.rb" proj in
  let t := NewSourceFile "test/calculator_test.rb" proj in
  isGem proj fsCalculator = false /\
  isSpec proj fsCalculator = false /\
  isTestFile s fsCalculator = false /\
  exists_in fsCalculator (Join [Root proj; Filename s]) = true /\
  exists_in fsCalculator (Join [Root proj; Filename t]) = true /\
  fst (AlternateFile s fsCalculator) = "/proj/test/calculator_test.rb" /\
  isTestFile t fsCalculator = true /\
  srcCandidates t fsCalculator =
    [ "app/calculator.rb"; "app/calculator_test.rb";
      "test/calculator.rb"; "test/calculator_test.rb";
      "lib/calculator.rb"; "lib/calculator_test.rb";
      "test/calculator.rb"; "test/calculator_test.rb" ] /\
  fst (AlternateFile t fsCalculator) = "/proj/test/calculator_test.rb" /\
  fst (AlternateFile t fsCalculator) <> Join [Root proj; Filename s].
Proof. vm_compute. repeat split. discriminate. Qed.

(** Another file can also come between a test and its source: with
    [app/lib/user.rb] next to [lib/user.rb] and [spec/lib/user_spec.rb], the
    spec resolves to [app/lib/user.rb], the candidate of the source
    directory [app], which is tried before [lib]. *)
Example round_trip_shadowed :
  let s := NewSourceFile "lib/user.rb" proj in
  let t := NewSourceFile "spec/lib/user_spec.rb" proj in
  isTestFile s fsShadowedSource = false /\
  exists_in fsShadowedSource "/proj/lib/user.rb" = true /\
  exists_in fsShadowedSource "/proj/spec/lib/user_spec.rb" = true /\
  fst (AlternateFile s fsShadowedSource) = "/proj/spec/lib/user_spec.rb" /\
  fst (AlternateFile t fsShadowedSource) = "/proj/app/lib/user.rb" /\
  fst (AlternateFile t fsShadowedSource) <> Join [Root proj; Filename s].
Proof. vm_compute. repeat split. discriminate. Qed.

(** Under the [test/] convention a controller resolves to its request spec,
    which is not a test file under that convention and resolves to
    nothing. *)
Example round_trip_request_spec_minitest :
  let s := NewSourceFile "app/controllers/users_controller.rb" proj in
  let t := NewSourceFile "spec/requests/users_controller_spec.rb" proj in
  fst (AlternateFile s fsControllersMinitest) =
    "/proj/spec/requests/users_controller_spec.rb" /\
  isTestFile t fsControllersMinitest = false /\
  fst (AlternateFile t fsControllersMinitest) = "".
Proof. vm_compute. repeat split. Qed.

(** * Beyond the claims *)

(** Running [NewCLI] on arguments whose flags are written out. *)
Ltac run_flags :=
  unfold NewCLI;
  cbn [String.eqb Ascii.eqb Bool.eqb orb Flag.Parse Flag.lookup lookupCmd
       String.length Nat.ltb Nat.leb prefix ascii_dec ascii_rec ascii_rect
       Bool.bool_dec bool_rec bool_rect negb Strings.skip Flag.cutEquals
       setLookupFlag CLI.Root CLI.Path sumbool_rec sumbool_rect
       eq_rec_r eq_rec eq_rect eq_sym f_equal append].

(** ** The command line *)

Lemma NewCLI_lookup (prog : string) (args : list string) (getwd : string) :
  NewCLI (prog :: "lookup" :: args) getwd =
  match Flag.Parse lookupCmd setLookupFlag args
          {| CLI.Root := ""; CLI.Path := "" |} with
  | inl Flag.ErrHelp => ([FlagUsage], Exited 0)
  | inl (Flag.Failf msg) => ([FlagMessage msg; FlagUsage], Exited 2)
  | inr (cli, _) =>
      ([], Running
             {| CLI.Root := if CLI.Root cli =? "" then getwd
                            else CLI.Root cli;
                CLI.Path := CLI.Path cli |})
  end.
Proof. reflexivity. Qed.

(** One flag, however it is written, sets its variable and leaves the rest
    of the arguments to be parsed. *)
Lemma Parse_spell (a : SpelledFlag) (rest : list string) (cli : CLI.t) :
  Flag.Parse lookupCmd setLookupFlag (spell a ++ rest) cli =
  Flag.Parse lookupCmd setLookupFlag rest (assign cli a).
Proof.
  destruct a as [f two long sp v]. unfold spell, assign.
  cbn [flagOf twoDashes longName spelling flagValue].
  destruct f, two, long, sp;
    cbn [flagName append app Flag.Parse Flag.lookup lookupCmd String.eqb
         Ascii.eqb Bool.eqb orb String.length Nat.ltb Nat.leb prefix
         ascii_dec ascii_rec ascii_rect Bool.bool_dec bool_rec bool_rect
         negb Strings.skip Flag.cutEquals sumbool_rec sumbool_rect
         eq_rec_r eq_rec eq_rect eq_sym f_equal];
    reflexivity.
Qed.

Lemma Parse_spelled (flags : list SpelledFlag) (rest : list string)
  (cli : CLI.t) :
  Flag.Parse lookupCmd setLookupFlag (flat_map spell flags ++ rest) cli =
  Flag.Parse lookupCmd setLookupFlag rest (fold_left assign flags cli).
Proof.
  revert cli. induction flags as [|a flags IH]; intro cli; [reflexivity|].
  cbn [flat_map fold_left]. rewrite <- app_assoc, Parse_spell. apply IH.
Qed.

Lemma Parse_notAFlag (x : string) (rest : list string) (cli : CLI.t) :
  notAFlag x = true ->
  Flag.Parse lookupCmd setLookupFlag (x :: rest) cli = inr (cli, x :: rest).
Proof.
  unfold notAFlag. intro H. cbn [Flag.Parse]. now rewrite H.
Qed.

(** [NewCLI] on a run of flags, followed by nothing or by an argument that
    is not a flag and anything after it. *)
Lemma NewCLI_spelled (prog : string) (flags : list SpelledFlag)
  (tail : list string) (getwd : string) :
  tail = [] \/ (exists x rest, tail = x :: rest /\ notAFlag x = true) ->
  NewCLI (prog :: "lookup" :: flat_map spell flags ++ tail) getwd =
  let cli := fold_left assign flags {| CLI.Root := ""; CLI.Path := "" |} in
  ([], Running {| CLI.Root := if CLI.Root cli =? "" then getwd
                              else CLI.Root cli;
                  CLI.Path := CLI.Path cli |}).
Proof.
  intro Htail. rewrite NewCLI_lookup, Parse_spelled.
  destruct Htail as [-> | [x [rest [-> Hx]]]].
  - reflexivity.
  - now rewrite Parse_notAFlag.
Qed.

Lemma NewCLI_flags (prog : string) (flags : list SpelledFlag)
  (getwd : string) :
  NewCLI (prog :: "lookup" :: flat_map spell flags) getwd =
  let cli := fold_left assign flags {| CLI.Root := ""; CLI.Path := "" |} in
  ([], Running {| CLI.Root := if CLI.Root cli =? "" then getwd
                              else CLI.Root cli;
                  CLI.Path := CLI.Path cli |}).
Proof.
  rewrite <- (app_nil_r (flat_map spell flags)).
  apply NewCLI_spelled. now left.
Qed.

(** X1. The first argument after the flags of [lookup] that is not a flag
    (shorter than two bytes, or without a leading dash) ends the flags, and
    it and whatever follows it are ignored: after any run of flags,
    [NewCLI] and [main] do the same with it and its followers as without
    them.  When it comes right after [lookup], so that no [-p] was read,
    [main] ends with "path is required" and status 1, without touching the
    file system or starting the editor, whatever flags come later. *)
Theorem lookup_stops_at_first_positional_argument
  (zed : string -> IO (option string)) (prog : string)
  (flags : list SpelledFlag) (x : string) (rest : list string)
  (getwd : string) (w : FS) :
  notAFlag x = true ->
  NewCLI (prog :: "lookup" :: flat_map spell flags ++ x :: rest) getwd =
    NewCLI (prog :: "lookup" :: flat_map spell flags) getwd /\
  main zed (prog :: "lookup" :: flat_map spell flags ++ x :: rest) getwd w =
    main zed (prog :: "lookup" :: flat_map spell flags) getwd w /\
  main zed (prog :: "lookup" :: x :: rest) getwd w =
    (([LogFatal "path is required"], 1), w).
Proof.
  intro Hx.
  assert (Hcli : NewCLI (prog :: "lookup" :: flat_map spell flags ++ x :: rest)
                   getwd =
                 NewCLI (prog :: "lookup" :: flat_map spell flags) getwd).
  { rewrite NewCLI_spelled by (right; now exists x, rest).
    now rewrite NewCLI_flags. }
  split; [exact Hcli|]. split.
  - unfold main. now rewrite Hcli.
  - unfold main. rewrite NewCLI_lookup, Parse_notAFlag by exact Hx.
    reflexivity.
Qed.

Lemma lookup_stops_at_first_positional_argument_witness :
  notAFlag "extra" = true /\
  NewCLI ["go-zed-test-toggle"; "lookup"; "-p"; "lib/user.rb"; "extra";
          "-r"; "/proj"] "/home" =
    ([], Running {| CLI.Root := "/home"; CLI.Path := "lib/user.rb" |}) /\
  main zedOk ["go-zed-test-toggle"; "lookup"; "lib/user.rb"; "-r"; "/proj"]
       "/home" fsRspecGem =
  (([LogFatal "path is required"], 1), fsRspecGem).
Proof.
  pose proof (lookup_stops_at_first_positional_argument zedOk
                "go-zed-test-toggle"
                [ {| flagOf := flagPath; twoDashes := false;
                     longName := false; spelling := NextArgument;
                     flagValue := "lib/user.rb" |} ]
                "extra" ["-r"; "/proj"] "/home" fsRspecGem eq_refl)
    as [Hcli _].
  pose proof (lookup_stops_at_first_positional_argument zedOk
                "go-zed-test-toggle" [] "lib/user.rb" ["-r"; "/proj"]
                "/home" fsRspecGem eq_refl)
    as [_ [_ Hmain]].
  split; [reflexivity|]. split; [exact Hcli | exact Hmain].
Defined.

Lemma Run_run (zed : string -> IO (option string)) (c : CLI.t) (w : FS) :
  Run zed c w =
  if CLI.Path c =? "" then (Some "path is required", w)
  else
    let alternateFile :=
      fst (AlternateFile
             (NewSourceFile (CLI.Path c) (NewProject (CLI.Root c))) w) in
    if alternateFile =? "" then (None, w) else zed alternateFile w.
Proof.
  unfold Run. destruct (CLI.Path c =? ""); [reflexivity|].
  rewrite bind_run by apply readonly_AlternateFile. cbv zeta.
  now destruct (fst (AlternateFile _ w) =? "").
Qed.

(** X2. What [main] does with [lookup -p P -r R]: with an empty [P] it ends
    with "path is required" and status 1; otherwise it resolves [P] in the
    project at [R] (at the working directory when [R] is empty); when there
    is no alternate file it ends with status 0, having written nothing and
    not started the editor; when there is one it starts the editor on it,
    and ends with status 0, or with the editor's error and status 1. *)
Theorem main_lookup
  (zed : string -> IO (option string)) (prog P R getwd : string) (w : FS) :
  main zed [prog; "lookup"; "-p"; P; "-r"; R] getwd w =
  if P =? "" then (([LogFatal "path is required"], 1), w)
  else
    let root := if R =? "" then getwd else R in
    let alternateFile :=
      fst (AlternateFile (NewSourceFile P (NewProject root)) w) in
    if alternateFile =? "" then (([], 0), w)
    else
      match zed alternateFile w with
      | (Some e, w') => (([LogFatal e], 1), w')
      | (None, w') => (([], 0), w')
      end.
Proof.
  unfold main. run_flags.
  unfold bind. rewrite Run_run. cbn [CLI.Root CLI.Path].
  destruct (P =? ""); [reflexivity|]. cbv zeta.
  destruct (fst (AlternateFile _ w) =? ""); [reflexivity|].
  destruct (zed _ w) as [[e|] w']; reflexivity.
Qed.

Lemma fold_assign_same (flags flags' : list SpelledFlag) (cli : CLI.t) :
  map assignment flags = map assignment flags' ->
  fold_left assign flags cli = fold_left assign flags' cli.
Proof.
  revert flags' cli. induction flags as [|a flags IH];
    intros [|a' flags'] cli H; try discriminate; [reflexivity|].
  cbn [map] in H.
  assert (Ha : assignment a = assignment a') by congruence.
  assert (Ht : map assignment flags = map assignment flags') by congruence.
  cbn [fold_left].
  replace (assign cli a) with (assign cli a').
  - now apply IH.
  - unfold assignment in Ha. unfold assign. congruence.
Qed.

(** X3. However the flags of [lookup] are written, the result is the same.
    Each flag may have one dash or two, its short or its long name, and its
    value as the next argument or after [=]; two runs of flags, of any
    length, that set the same variables to the same values in the same
    order are parsed alike, wherever in the arguments they stand, and
    [NewCLI] returns the same for both: the variables as the flags set them
    one after the other, with the working directory for an empty root.  A
    value is taken as it is, whatever its bytes. *)
Theorem lookup_flags_in_any_spelling
  (prog getwd : string) (flags flags' : list SpelledFlag) :
  map assignment flags = map assignment flags' ->
  (forall rest cli,
      Flag.Parse lookupCmd setLookupFlag (flat_map spell flags ++ rest) cli =
      Flag.Parse lookupCmd setLookupFlag (flat_map spell flags' ++ rest) cli)
  /\
  NewCLI (prog :: "lookup" :: flat_map spell flags) getwd =
    NewCLI (prog :: "lookup" :: flat_map spell flags') getwd /\
  NewCLI (prog :: "lookup" :: flat_map spell flags) getwd =
    (let cli := fold_left assign flags {| CLI.Root := ""; CLI.Path := "" |} in
     ([], Running {| CLI.Root := if CLI.Root cli =? "" then getwd
                                 else CLI.Root cli;
                     CLI.Path := CLI.Path cli |})).
Proof.
  intro Hsame.
  assert (Hnew : forall fl,
             NewCLI (prog :: "lookup" :: flat_map spell fl) getwd =
             (let cli :=
                fold_left assign fl {| CLI.Root := ""; CLI.Path := "" |} in
              ([], Running {| CLI.Root := if CLI.Root cli =? "" then getwd
                                          else CLI.Root cli;
                              CLI.Path := CLI.Path cli |}))).
  { intro fl. apply NewCLI_flags. }
  split; [|split].
  - intros rest cli. rewrite !Parse_spelled.
    now rewrite (fold_assign_same flags flags' cli Hsame).
  - rewrite !Hnew. cbv zeta.
    now rewrite (fold_assign_same flags flags' _ Hsame).
  - apply Hnew.
Qed.

Lemma lookup_flags_in_any_spelling_witness :
  NewCLI ["go-zed-test-toggle"; "lookup"; "-p"; "lib/user.rb"; "-r"; "/proj"]
         "/home" =
  NewCLI ["go-zed-test-toggle"; "lookup"; "--path=lib/user.rb";
          "--root"; "/proj"] "/home".
Proof.
  exact (proj1 (proj2 (lookup_flags_in_any_spelling
           "go-zed-test-toggle" "/home"
           [ {| flagOf := flagPath; twoDashes := false; longName := false;
                spelling := NextArgument; flagValue := "lib/user.rb" |};
             {| flagOf := flagRoot; twoDashes := false; longName := false;
                spelling := NextArgument; flagValue := "/proj" |} ]
           [ {| flagOf := flagPath; twoDashes := true; longName := true;
                spelling := AfterEquals; flagValue := "lib/user.rb" |};
             {| flagOf := flagRoot; twoDashes := true; longName := true;
                spelling := NextArgument; flagValue := "/proj" |} ]
           eq_refl))).
Defined.

Lemma fold_assign_Path (flags : list SpelledFlag) (cli : CLI.t) :
  CLI.Path (fold_left assign flags cli) =
  match lastValue flagPath flags with
  | Some v => v
  | None => CLI.Path cli
  end.
Proof.
  revert cli. induction flags as [|a flags IH]; intro cli; [reflexivity|].
  cbn [fold_left lastValue]. rewrite IH.
  destruct (lastValue flagPath flags); [reflexivity|].
  unfold assign. now destruct (flagOf a).
Qed.

Lemma fold_assign_Root (flags : list SpelledFlag) (cli : CLI.t) :
  CLI.Root (fold_left assign flags cli) =
  match lastValue flagRoot flags with
  | Some v => v
  | None => CLI.Root cli
  end.
Proof.
  revert cli. induction flags as [|a flags IH]; intro cli; [reflexivity|].
  cbn [fold_left lastValue]. rewrite IH.
  destruct (lastValue flagRoot flags); [reflexivity|].
  unfold assign. now destruct (flagOf a).
Qed.

(** X4. The two names of a flag set the same variable, and a flag given
    more than once keeps its last value: for any run of flags of [lookup],
    in any spelling, [NewCLI] returns as path the value of the last flag
    that is [-p] or [-path] (the empty path when there is none), and as root
    the value of the last flag that is [-r] or [-root] (the working
    directory when there is none or when that value is empty). *)
Theorem lookup_flag_keeps_last_value
  (prog getwd : string) (flags : list SpelledFlag) :
  NewCLI (prog :: "lookup" :: flat_map spell flags) getwd =
  ([], Running
         {| CLI.Root := match lastValue flagRoot flags with
                        | Some r => if r =? "" then getwd else r
                        | None => getwd
                        end;
            CLI.Path := match lastValue flagPath flags with
                        | Some v => v
                        | None => ""
                        end |}).
Proof.
  rewrite NewCLI_flags. cbv zeta.
  rewrite fold_assign_Path, fold_assign_Root. cbn [CLI.Root CLI.Path].
  now destruct (lastValue flagRoot flags).
Qed.

(** X5. [NewCLI] returns, rather than ending the process, only for the
    [lookup] command; it has then written nothing, and the root it returns
    is empty only if the working directory could not be had. *)
Theorem NewCLI_returns_for_lookup_only
  (args : list string) (getwd : string) (out : list Output) (cli : CLI.t) :
  NewCLI args getwd = (out, Running cli) ->
  out = [] /\
  nth_error args 1 = Some "lookup" /\
  (getwd <> "" -> CLI.Root cli <> "").
Proof.
  unfold NewCLI. destruct args as [|prog [|command rest]];
    [discriminate | discriminate |].
  destruct ((command =? "-v") || (command =? "--version") ||
            (command =? "version")); [discriminate|].
  destruct (command =? "lookup") eqn:Hcmd.
  - apply String.eqb_eq in Hcmd. subst command.
    destruct (Flag.Parse lookupCmd setLookupFlag rest _) as [[|msg] | [c r]];
      [discriminate | discriminate |].
    intro H. injection H as <- <-. repeat split.
    cbn [CLI.Root]. intros Hwd.
    destruct (CLI.Root c =? "") eqn:E; [exact Hwd|].
    now apply String.eqb_neq in E.
  - destruct ((command =? "help") || (command =? "-h") ||
              (command =? "--help")); discriminate.
Qed.

Lemma NewCLI_returns_for_lookup_only_witness :
  nth_error ["go-zed-test-toggle"; "lookup"; "-p"; "lib/user.rb"] 1
  = Some "lookup" /\
  CLI.Root {| CLI.Root := "/home"; CLI.Path := "lib/user.rb" |} <> "".
Proof.
  pose proof (NewCLI_returns_for_lookup_only
                ["go-zed-test-toggle"; "lookup"; "-p"; "lib/user.rb"] "/home"
                [] {| CLI.Root := "/home"; CLI.Path := "lib/user.rb" |}
                eq_refl) as [_ [Hcmd Hroot]].
  split; [exact Hcmd | apply Hroot; discriminate].
Defined.

(** ** The project root *)

Lemma substring_append (a b : string) :
  substring 0 (String.length a) (a ++ b) = a.
Proof. induction a as [|c a IH]; simpl; [now destruct b | now rewrite IH]. Qed.

(** X6. [NewProject] removes one trailing slash from the root and nothing
    else: [r/] gives the root [r] (so [/] gives the empty root, and [r//]
    gives [r/]), and a root that does not end with a slash is kept. *)
Theorem NewProject_trims_one_slash (r : string) :
  Root (NewProject (r ++ "/")) = r /\
  (HasSuffix r "/" = false -> Root (NewProject r) = r).
Proof.
  unfold NewProject, TrimSuffix. cbn [Root]. split.
  - assert (H : HasSuffix (r ++ "/") "/" = true)
      by (apply HasSuffix_iff; now exists r).
    rewrite H, length_append. cbn [String.length].
    replace (String.length r + 1 - 1) with (String.length r) by lia.
    apply substring_append.
  - now intros ->.
Qed.

Lemma NewProject_trims_one_slash_witness :
  HasSuffix "/proj" "/" = false /\ Root (NewProject "/proj") = "/proj".
Proof.
  split; [reflexivity|].
  exact (proj2 (NewProject_trims_one_slash "/proj") eq_refl).
Defined.

(** ** What the resolver returns *)

Lemma firstExisting_spec root w cands :
  firstExisting root w cands = "" \/
  exists c, In c cands /\
            exists_in w (Join [root; c]) = true /\
            firstExisting root w cands = Join [root; c].
Proof.
  unfold firstExisting.
  destruct (find (fun c => exists_in w (Join [root; c])) cands) as [c|] eqn:E.
  - right. apply find_some in E. destruct E as [Hin Hex]. now exists c.
  - now left.
Qed.

(** X7. [AlternateFile] never returns a path that does not exist: its
    result is the empty string, or one of the candidates of the direction
    the path was classified for, resolved against the root, and that path
    exists. *)
Theorem AlternateFile_returns_existing_candidate (s : SourceFile) (w : FS) :
  fst (AlternateFile s w) = "" \/
  exists c,
    In c (if isTestFile s w then srcCandidates s w else testCandidates s w) /\
    fst (AlternateFile s w) = Join [Root (Project_ s); c] /\
    exists_in w (fst (AlternateFile s w)) = true.
Proof.
  rewrite AlternateFile_run.
  destruct (isTestFile s w).
  - rewrite findAlternateSrc_first.
    destruct (firstExisting_spec (Root (Project_ s)) w (srcCandidates s w))
      as [H | [c [Hin [Hex Heq]]]]; [now left|].
    right. exists c. rewrite Heq. auto.
  - rewrite findAlternateTest_first.
    destruct (firstExisting_spec (Root (Project_ s)) w (testCandidates s w))
      as [H | [c [Hin [Hex Heq]]]]; [now left|].
    right. exists c. rewrite Heq. auto.
Qed.

(** ** More facts about strings *)

Section OccurrenceFacts.

#[local] Arguments prefix : simpl never.
#[local] Arguments String.eqb : simpl never.

Lemma prefix_iff (p s : string) :
  prefix p s = true <-> exists t, s = p ++ t.
Proof.
  split.
  - revert s. induction p as [|c p IH]; intros s H; [now exists s|].
    destruct s as [|x s]; [discriminate|].
    change (prefix (String c p) (String x s))
      with (if ascii_dec c x then prefix p s else false) in H.
    destruct (ascii_dec c x) as [<- | _]; [|discriminate].
    destruct (IH s H) as [t ->]. now exists t.
  - intros [t ->]. induction p as [|c p IH]; [apply prefix_nil|].
    change (prefix (String c p) (String c p ++ t))
      with (if ascii_dec c c then prefix p (p ++ t) else false).
    destruct (ascii_dec c c); [exact IH | congruence].
Qed.

Lemma skip_length_append (a b : string) :
  skip (String.length a) (a ++ b) = b.
Proof. induction a as [|c a IH]; simpl; [now destruct b | exact IH]. Qed.

(** An occurrence at the very start is the first one. *)
Lemma Replace1_at_start (old rest new : string) :
  Replace1 (old ++ rest) old new = new ++ rest.
Proof.
  rewrite Replace1_unfold.
  assert (H : prefix old (old ++ rest) = true)
    by (apply prefix_iff; now exists rest).
  now rewrite H, skip_length_append.
Qed.

(** Two ways to cut one string. *)
Lemma append_eq_split (x y u v : string) :
  x ++ y = u ++ v -> String.length x <= String.length u ->
  exists m, u = x ++ m /\ y = m ++ v.
Proof.
  revert u. induction x as [|c x IH]; intros u H Hlen.
  - now exists u.
  - destruct u as [|d u]; simpl in Hlen; [lia|].
    simpl in H. injection H as <- H.
    destruct (IH u H) as [m [-> ->]]; [lia|]. now exists m.
Qed.

(** The same end, cut off at the same length. *)
Lemma append_inj_end (a b u v : string) :
  a ++ u = b ++ v -> String.length u = String.length v -> u = v.
Proof.
  revert b. induction a as [|c a IH]; intros b H Hlen.
  - destruct b as [|d b]; [exact H|].
    exfalso. simpl in H. rewrite H in Hlen. simpl in Hlen.
    rewrite length_append in Hlen. lia.
  - destruct b as [|d b].
    + exfalso. simpl in H. rewrite <- H in Hlen. simpl in Hlen.
      rewrite length_append in Hlen. lia.
    + simpl in H. injection H as _ H. now apply (IH b).
Qed.

Lemma noOverlapFrom_end (old r x y : string) :
  noOverlapFrom old r = true -> r = x ++ y -> y <> "" ->
  prefix y old = false.
Proof.
  revert r. induction x as [|c x IH]; intros r H -> Hy.
  - destruct y as [|d y]; [congruence|].
    simpl in H. apply andb_true_iff in H. destruct H as [H _].
    now apply negb_true_iff in H.
  - simpl in H. apply andb_true_iff in H. destruct H as [_ H].
    now apply (IH (x ++ y)).
Qed.

(** When [old] does not occur in [a] and cannot overlap itself, its first
    occurrence in [a ++ old ++ rest] is the one after [a]. *)
Lemma Replace1_first (a old rest new : string) :
  noOverlap old = true -> Contains a old = false ->
  Replace1 (a ++ old ++ rest) old new = a ++ new ++ rest.
Proof.
  intros Hno. induction a as [|c a IH]; intro Ha.
  - exact (Replace1_at_start old rest new).
  - simpl in Ha. apply orb_false_iff in Ha. destruct Ha as [Hp Ha].
    rewrite Replace1_unfold.
    destruct (prefix old (String c a ++ old ++ rest)) eqn:E.
    + exfalso.
      destruct (Nat.le_gt_cases (String.length old)
                  (String.length (String c a))) as [Hle | Hgt].
      * apply prefix_append_inv in E; [congruence | exact Hle].
      * apply prefix_iff in E. destruct E as [t E].
        destruct (append_eq_split (String c a) (old ++ rest) old t E)
          as [o2 [Hold Hrest]]; [lia|].
        assert (Ho2 : String.length o2 < String.length old).
        { rewrite Hold, length_append. simpl. lia. }
        destruct (append_eq_split o2 t old rest (eq_sym Hrest))
          as [o3 [Hold' _]]; [lia|].
        assert (Hpre : prefix o2 old = true)
          by (apply prefix_iff; now exists o3).
        assert (Hne : o2 <> "").
        { intros ->. rewrite append_nil_r in Hold.
          rewrite Hold in Hgt. lia. }
        destruct old as [|c0 old0]; [simpl in Hgt; lia|].
        simpl in Hold. injection Hold as _ Hold.
        simpl in Hno.
        rewrite (noOverlapFrom_end _ old0 a o2 Hno Hold Hne) in Hpre.
        discriminate.
    + cbn [append]. f_equal. now apply IH.
Qed.

Lemma Contains_cons_other (c c0 : ascii) (s old' : string) :
  c <> c0 ->
  Contains (String c s) (String c0 old') = Contains s (String c0 old').
Proof.
  intro Hne. simpl.
  change (prefix (String c0 old') (String c s))
    with (if ascii_dec c0 c then prefix old' s else false).
  destruct (ascii_dec c0 c); [congruence | reflexivity].
Qed.

Lemma prefix_append_pattern (p q s : string) :
  prefix (p ++ q) s = true -> prefix p s = true.
Proof.
  intro H. apply prefix_iff in H. destruct H as [t ->].
  apply prefix_iff. exists (q ++ t). apply append_assoc.
Qed.

(** A text without the beginning of a pattern is without the pattern. *)
Lemma Contains_pattern_start (s p q : string) :
  Contains s p = false -> Contains s (p ++ q) = false.
Proof.
  induction s as [|c s IH]; simpl; intro H;
    apply orb_false_iff in H; destruct H as [Hp H].
  - destruct (prefix (p ++ q) "") eqn:E; [|reflexivity].
    apply prefix_append_pattern in E. congruence.
  - rewrite IH by exact H.
    destruct (prefix (p ++ q) (String c s)) eqn:E; [|reflexivity].
    apply prefix_append_pattern in E. congruence.
Qed.

Lemma eqb_longer (x lit : string) (c : ascii) :
  (String c (x ++ lit) =? lit) = false.
Proof.
  apply String.eqb_neq. intro H.
  apply (f_equal String.length) in H. simpl in H.
  rewrite length_append in H. lia.
Qed.

(** A pattern of literal bytes closed by [$] is replaced at the end of a
    text that ends with it. *)
Lemma ReplaceAllString_lits_end (lit a repl : string) :
  ReplaceAllString (lits lit) (a ++ lit) repl = a ++ repl.
Proof.
  induction a as [|c a IH].
  - rewrite ReplaceAllString_unfold, matchEnd_lits.
    cbn [append]. now rewrite String.eqb_refl.
  - rewrite ReplaceAllString_unfold, matchEnd_lits. cbn [append].
    rewrite eqb_longer. f_equal. exact IH.
Qed.

(** A pattern that cannot match across a separator is looked for in the
    final segment only. *)
Lemma MatchString_last_segment (re : Regexp) (s : string) :
  (forall x, matchEnd re x = true -> Contains x "/" = false) ->
  MatchString re s = MatchString re (lastSegment s).
Proof.
  intro Hre.
  destruct (lastSegment_decompose s) as [a [Hs [Ha _]]].
  destruct Ha as [-> | [a' ->]]; [cbn [append] in Hs; now rewrite <- Hs|].
  rewrite Hs at 1. generalize (lastSegment s). clear Hs. intro m.
  rewrite append_assoc. change ("/" ++ m) with (String "/"%char m).
  induction a' as [|c a' IH]; cbn [append MatchString].
  - destruct (matchEnd re (String "/" m)) eqn:E; [|reflexivity].
    apply Hre in E. rewrite Contains_slash_cons in E. discriminate.
  - rewrite IH.
    destruct (matchEnd re (String c (a' ++ String "/" m))) eqn:E;
      [|reflexivity].
    apply Hre in E. change (String c (a' ++ String "/" m))
      with (String c a' ++ "/" ++ m) in E.
    rewrite Contains_slash_append in E.
    apply orb_false_iff in E. destruct E as [_ E].
    cbn [append] in E. rewrite Contains_slash_cons in E. discriminate.
Qed.

Lemma matchEnd_lits_no_slash (lit x : string) :
  Contains lit "/" = false ->
  matchEnd (lits lit) x = true -> Contains x "/" = false.
Proof.
  intros Hlit H. rewrite matchEnd_lits in H.
  apply String.eqb_eq in H. now subst.
Qed.

End OccurrenceFacts.

(** ** Test names *)

Lemma re_test_prefix_no_slash (x : string) :
  matchEnd re_test_prefix x = true -> Contains x "/" = false.
Proof. apply matchEnd_test_prefix_no_slash. Qed.

(** X8. Whether a path is a test file depends on its final segment only:
    under either convention the path and its final segment alone are
    classified alike, whatever the directories are called. *)
Theorem classification_by_final_segment
  (p : Project) (filename : string) (w : FS) :
  isTestFile (NewSourceFile filename p) w =
  isTestFile (NewSourceFile (lastSegment filename) p) w.
Proof.
  rewrite !IsTestFile_run. unfold NewSourceFile. cbn [Filename Project_].
  rewrite TestRegexes_run. destruct (isSpec p w); cbn [existsb].
  - now rewrite (MatchString_last_segment re_spec filename)
      by (intro x; now apply (matchEnd_lits_no_slash "_spec.rb")).
  - rewrite (MatchString_last_segment re_test filename)
      by (intro x; now apply (matchEnd_lits_no_slash "_test.rb")).
    now rewrite (MatchString_last_segment re_test_prefix filename)
      by exact re_test_prefix_no_slash.
Qed.

Lemma HasSuffix_append_same (a suf : string) : HasSuffix (a ++ suf) suf = true.
Proof. apply HasSuffix_iff. now exists a. Qed.

Lemma isTestFile_with_suffix (p : Project) (w : FS) (a : string) :
  isTestFile (NewSourceFile (a ++ testSuffix p w) p) w = true.
Proof.
  rewrite IsTestFile_run. unfold NewSourceFile. cbn [Filename Project_].
  rewrite TestRegexes_run, TestSuffix_run.
  destruct (isSpec p w); cbn [existsb]; unfold re_spec, re_test;
    now rewrite MatchString_lits, HasSuffix_append_same.
Qed.

Lemma Replace1_extension (a suffix : string) :
  Contains a ".rb" = false -> Replace1 (a ++ ".rb") ".rb" suffix = a ++ suffix.
Proof.
  intro H.
  pose proof (Replace1_first a ".rb" "" suffix eq_refl H) as E.
  now rewrite !append_nil_r in E.
Qed.

(** X9. [Testify] turns a path whose only [.rb] is its extension into a
    test file of the project's convention: the extension is replaced by the
    test suffix, and [IsTestFile] accepts the result. *)
Theorem Testify_makes_a_test_file (p : Project) (w : FS) (body : string) :
  Contains body ".rb" = false ->
  fst (Testify p (body ++ ".rb") w) = body ++ testSuffix p w /\
  isTestFile (NewSourceFile (fst (Testify p (body ++ ".rb") w)) p) w = true.
Proof.
  intro H.
  assert (E : fst (Testify p (body ++ ".rb") w) = body ++ testSuffix p w)
    by (rewrite Testify_run; now apply Replace1_extension).
  split; [exact E|]. rewrite E. apply isTestFile_with_suffix.
Qed.

Lemma Testify_makes_a_test_file_witness :
  Contains "spec/lib/user" ".rb" = false /\
  fst (Testify proj "spec/lib/user.rb" fsRspecGem) = "spec/lib/user_spec.rb".
Proof.
  split; [reflexivity|].
  exact (proj1 (Testify_makes_a_test_file proj fsRspecGem "spec/lib/user"
                  eq_refl)).
Defined.

(** ** From source to test and back *)

Lemma srcCandidate_of_test (srcDir testDir body suffix : string) :
  srcCandidate (testDir ++ body ++ suffix) srcDir testDir (lits suffix) =
  srcDir ++ body ++ ".rb".
Proof.
  unfold srcCandidate. rewrite Replace1_at_start.
  rewrite <- append_assoc, ReplaceAllString_lits_end.
  apply append_assoc.
Qed.

Lemma suffix_pattern_in_testRegexes (p : Project) (w : FS) :
  In (lits (testSuffix p w)) (testRegexes p w).
Proof.
  rewrite TestRegexes_run, TestSuffix_run.
  destruct (isSpec p w); now left.
Qed.

(** X10. The candidates of the two directions undo each other.  For a
    source path that starts with a non-empty source directory and ends with
    [.rb], with no other [.rb] in what the test candidate keeps of it:
    the test candidate of a directory pair is the test directory, the rest
    of the path, and the test suffix in place of the extension; and the
    source candidate made of that test path, for the same pair and the
    suffix pattern of the convention, is the source path again. *)
Theorem candidates_round_trip
  (p : Project) (w : FS) (srcDir testDir body : string) :
  let source := srcDir ++ body ++ ".rb" in
  let test := fst (Testify p (testCandidate source testDir srcDir) w) in
  srcDir <> "" ->
  Contains (testDir ++ body) ".rb" = false ->
  test = testDir ++ body ++ testSuffix p w /\
  exists regex,
    In regex (testRegexes p w) /\
    srcCandidate test srcDir testDir regex = source.
Proof.
  intros source test Hsrc Hrb.
  assert (E : test = testDir ++ body ++ testSuffix p w).
  { unfold test, source, testCandidate.
    apply String.eqb_neq in Hsrc. rewrite Hsrc.
    rewrite Replace1_at_start, Testify_run.
    rewrite <- append_assoc, Replace1_extension by exact Hrb.
    apply append_assoc. }
  split; [exact E|].
  exists (lits (testSuffix p w)). split.
  - apply suffix_pattern_in_testRegexes.
  - rewrite E. apply srcCandidate_of_test.
Qed.

Lemma candidates_round_trip_witness :
  Contains ("spec" ++ "/models/user") ".rb" = false /\
  fst (Testify proj (testCandidate "app/models/user.rb" "spec" "app")
         fsRspecGem) = "spec/models/user_spec.rb" /\
  srcCandidate "spec/models/user_spec.rb" "app" "spec" re_spec =
  "app/models/user.rb".
Proof.
  split; [reflexivity|].
  destruct (candidates_round_trip proj fsRspecGem "app" "spec" "/models/user")
    as [Htest _]; [discriminate | reflexivity |].
  split; [exact Htest | reflexivity].
Defined.

Lemma firstExisting_unique root w cands target :
  (exists c, In c cands /\ exists_in w (Join [root; c]) = true) ->
  (forall c, In c cands -> exists_in w (Join [root; c]) = true ->
             Join [root; c] = target) ->
  firstExisting root w cands = target.
Proof.
  intros [c0 [Hin0 Hex0]] Hall. unfold firstExisting.
  destruct (find (fun c => exists_in w (Join [root; c])) cands) as [c|] eqn:E.
  - apply find_some in E. destruct E as [Hin Hex]. now apply Hall.
  - apply (find_none _ _ E) in Hin0. cbv beta in Hin0. congruence.
Qed.

(** X11. A test file named after a source file finds it.  Let the test path
    be a test directory of the convention, then any rest, then the test
    suffix, and the source path a source directory of the convention, the
    same rest, and [.rb].  If the source file exists, and every candidate of
    the test path that exists resolves to the same path as the source file,
    then [AlternateFile] on the test path returns the source file. *)
Theorem test_file_resolves_to_its_source
  (p : Project) (w : FS) (srcDir testDir body : string) :
  let source := srcDir ++ body ++ ".rb" in
  let test := testDir ++ body ++ testSuffix p w in
  In srcDir (srcPaths p w) ->
  In testDir (testPaths p w) ->
  exists_in w (Join [Root p; source]) = true ->
  (forall c, In c (srcCandidates (NewSourceFile test p) w) ->
             exists_in w (Join [Root p; c]) = true ->
             Join [Root p; c] = Join [Root p; source]) ->
  fst (AlternateFile (NewSourceFile test p) w) = Join [Root p; source].
Proof.
  intros source test Hsrc Htest Hex Honly.
  rewrite AlternateFile_run.
  assert (Hclass : isTestFile (NewSourceFile test p) w = true).
  { unfold test. rewrite <- append_assoc. apply isTestFile_with_suffix. }
  rewrite Hclass, findAlternateSrc_first. cbn [Project_ NewSourceFile].
  apply firstExisting_unique; [|exact Honly].
  exists source. split; [|exact Hex].
  unfold srcCandidates. apply in_or_app. right.
  unfold generalSrcCandidates. cbn [Project_ Filename NewSourceFile].
  apply in_flat_map. exists srcDir. split; [exact Hsrc|].
  apply in_flat_map. exists testDir. split; [exact Htest|].
  apply in_map_iff. exists (lits (testSuffix p w)). split.
  - apply srcCandidate_of_test.
  - apply suffix_pattern_in_testRegexes.
Qed.

Lemma test_file_resolves_to_its_source_witness :
  In "lib" (srcPaths proj fsRspecGem) /\
  In "spec/lib" (testPaths proj fsRspecGem) /\
  exists_in fsRspecGem "/proj/lib/user.rb" = true /\
  fst (AlternateFile (NewSourceFile "spec/lib/user_spec.rb" proj) fsRspecGem)
  = "/proj/lib/user.rb".
Proof.
  assert (Hs : In "lib" (srcPaths proj fsRspecGem)) by (now left).
  assert (Ht : In "spec/lib" (testPaths proj fsRspecGem))
    by (right; now left).
  refine (conj Hs (conj Ht (conj eq_refl _))).
  refine (test_file_resolves_to_its_source proj fsRspecGem "lib" "spec/lib"
            "/user" Hs Ht eq_refl _).
  intros c Hc Hex.
  destruct Hc as [<- | [<- | [<- | [<- | []]]]];
    first [reflexivity | discriminate Hex].
Defined.

(** ** Controllers and request specs *)

(** A suffix no longer than [y] is looked for in [y] alone. *)
Lemma HasSuffix_append_short (x y suf : string) :
  String.length suf <= String.length y ->
  HasSuffix (x ++ y) suf = HasSuffix y suf.
Proof.
  intro Hlen. destruct (HasSuffix y suf) eqn:E.
  - apply HasSuffix_iff in E. destruct E as [m ->].
    apply HasSuffix_iff. exists (x ++ m). symmetry. apply append_assoc.
  - destruct (HasSuffix (x ++ y) suf) eqn:E'; [|reflexivity].
    apply HasSuffix_iff in E'. destruct E' as [pre H].
    destruct (append_eq_split x y pre suf H) as [m [_ Hy]].
    + apply (f_equal String.length) in H. rewrite !length_append in H. lia.
    + rewrite <- E. symmetry. apply HasSuffix_iff. now exists m.
Qed.

(** X12. No path is both a controller and a request spec: the two special
    cases of the resolver never apply to the same file. *)
Theorem controller_and_request_spec_exclusive (s : SourceFile) :
  IsController s && IsRequestSpec s = false.
Proof.
  unfold IsController, IsRequestSpec.
  destruct (HasSuffix (Filename s) "_controller_spec.rb") eqn:E;
    [|now rewrite !andb_false_r].
  apply HasSuffix_iff in E. destruct E as [pre ->].
  rewrite (HasSuffix_append_short pre "_controller_spec.rb" "_controller.rb")
    by (simpl; lia).
  cbn [HasSuffix String.eqb Ascii.eqb Bool.eqb andb orb].
  now rewrite andb_false_r.
Qed.

Lemma Contains_at_start (old rest : string) :
  Contains (old ++ rest) old = true.
Proof.
  assert (H : prefix old (old ++ rest) = true)
    by (apply prefix_iff; now exists rest).
  remember (old ++ rest) as s eqn:E. clear E.
  destruct s; cbn [Contains]; now rewrite H.
Qed.

Section ControllerNames.

Variable name : string.
Hypothesis Hname : Contains name "_controller" = false.

#[local] Abbreviation controller :=
  ("app/controllers/" ++ name ++ "_controller.rb").
#[local] Abbreviation requestSpec :=
  ("spec/requests/" ++ name ++ "_controller_spec.rb").

Lemma requestSpecCandidate_of_controller :
  requestSpecCandidate controller = requestSpec.
Proof.
  unfold requestSpecCandidate.
  rewrite Replace1_at_start.
  pose proof (Replace1_first ("spec/requests/" ++ name) "_controller.rb" ""
                "_controller_spec.rb" eq_refl) as E.
  rewrite !append_nil_r, !append_assoc in E. apply E.
  apply (Contains_pattern_start _ "_controller" ".rb").
  cbn [append]. now rewrite !Contains_cons_other by discriminate.
Qed.

Lemma controllerCandidate_of_requestSpec :
  controllerCandidate requestSpec = controller.
Proof.
  unfold controllerCandidate.
  rewrite Replace1_at_start.
  pose proof (Replace1_first ("app/controllers/" ++ name)
                "_controller_spec.rb" "" "_controller.rb" eq_refl) as E.
  rewrite !append_nil_r, !append_assoc in E. apply E.
  apply (Contains_pattern_start _ "_controller" "_spec.rb").
  cbn [append]. now rewrite !Contains_cons_other by discriminate.
Qed.

Lemma controller_IsController p :
  IsController (NewSourceFile controller p) = true.
Proof.
  unfold IsController. cbn [Filename NewSourceFile].
  rewrite Contains_at_start.
  now rewrite <- append_assoc, HasSuffix_append_same.
Qed.

Lemma requestSpec_IsRequestSpec p :
  IsRequestSpec (NewSourceFile requestSpec p) = true.
Proof.
  unfold IsRequestSpec. cbn [Filename NewSourceFile].
  rewrite Contains_at_start.
  now rewrite <- append_assoc, HasSuffix_append_same.
Qed.

Lemma controller_is_source p w :
  isSpec p w = true -> isTestFile (NewSourceFile controller p) w = false.
Proof.
  intro Hspec. rewrite IsTestFile_run. unfold NewSourceFile.
  cbn [Filename Project_]. rewrite TestRegexes_run, Hspec.
  cbn [existsb]. unfold re_spec.
  rewrite MatchString_lits, <- append_assoc.
  now rewrite HasSuffix_append_short by (simpl; lia).
Qed.

Lemma requestSpec_is_test p w :
  isSpec p w = true -> isTestFile (NewSourceFile requestSpec p) w = true.
Proof.
  intro Hspec. rewrite IsTestFile_run. unfold NewSourceFile.
  cbn [Filename Project_]. rewrite TestRegexes_run, Hspec.
  cbn [existsb]. unfold re_spec.
  rewrite MatchString_lits, <- append_assoc.
  now rewrite HasSuffix_append_short by (simpl; lia).
Qed.

End ControllerNames.

(** X13. In a project with the descriptive-spec convention a controller and
    its request spec toggle to each other whatever else exists: for a
    controller [app/controllers/<name>_controller.rb] whose name has no
    other [_controller] in it, if it and
    [spec/requests/<name>_controller_spec.rb] both exist, [AlternateFile]
    takes each of the two to the other. *)
Theorem controller_and_request_spec_toggle
  (p : Project) (w : FS) (name : string) :
  let controller := "app/controllers/" ++ name ++ "_controller.rb" in
  let requestSpec := "spec/requests/" ++ name ++ "_controller_spec.rb" in
  isSpec p w = true ->
  Contains name "_controller" = false ->
  exists_in w (Join [Root p; controller]) = true ->
  exists_in w (Join [Root p; requestSpec]) = true ->
  fst (AlternateFile (NewSourceFile controller p) w) =
    Join [Root p; requestSpec] /\
  fst (AlternateFile (NewSourceFile requestSpec p) w) =
    Join [Root p; controller].
Proof.
  intros controller requestSpec Hspec Hname Hc Hr.
  subst controller requestSpec. split.
  - rewrite AlternateFile_run, (controller_is_source name p w Hspec).
    rewrite findAlternateTest_first. unfold testCandidates.
    rewrite (controller_IsController name p).
    cbn [app Filename Project_ NewSourceFile].
    rewrite firstExisting_cons.
    rewrite (requestSpecCandidate_of_controller name Hname).
    now rewrite Hr.
  - rewrite AlternateFile_run, (requestSpec_is_test name p w Hspec).
    rewrite findAlternateSrc_first. unfold srcCandidates.
    rewrite (requestSpec_IsRequestSpec name p).
    cbn [app Filename Project_ NewSourceFile].
    rewrite firstExisting_cons.
    rewrite (controllerCandidate_of_requestSpec name Hname).
    now rewrite Hc.
Qed.

Lemma controller_and_request_spec_toggle_witness :
  isSpec proj fsControllers = true /\
  Contains "api/v1/foos" "_controller" = false /\
  fst (AlternateFile
         (NewSourceFile "app/controllers/api/v1/foos_controller.rb" proj)
         fsControllers)
  = "/proj/spec/requests/api/v1/foos_controller_spec.rb" /\
  fst (AlternateFile
         (NewSourceFile "spec/requests/api/v1/foos_controller_spec.rb" proj)
         fsControllers)
  = "/proj/app/controllers/api/v1/foos_controller.rb".
Proof.
  refine (conj eq_refl (conj eq_refl _)).
  exact (controller_and_request_spec_toggle proj fsControllers "api/v1/foos"
           eq_refl eq_refl eq_refl eq_refl).
Defined.

(** ** Paths that are not Ruby files *)

Lemma Contains_self (b : string) : Contains b b = true.
Proof.
  pose proof (Contains_at_start b "") as H. now rewrite append_nil_r in H.
Qed.

Lemma HasSuffix_Contains (s a b : string) :
  HasSuffix s (a ++ b) = true -> Contains s b = true.
Proof.
  intro H. apply HasSuffix_iff in H. destruct H as [pre ->].
  rewrite <- append_assoc. apply Contains_append_r. apply Contains_self.
Qed.

Lemma isTestFile_needs_extension (s : SourceFile) (w : FS) :
  Contains (Filename s) ".rb" = false -> isTestFile s w = false.
Proof.
  intro H. rewrite IsTestFile_run, TestRegexes_run.
  destruct (isSpec (Project_ s) w); cbn [existsb]; unfold re_spec, re_test;
    rewrite MatchString_lits, ?orb_false_r.
  - destruct (HasSuffix (Filename s) "_spec.rb") eqn:E; [|reflexivity].
    apply (HasSuffix_Contains _ "_spec" ".rb") in E. congruence.
  - destruct (HasSuffix (Filename s) "_test.rb") eqn:E.
    + apply (HasSuffix_Contains _ "_test" ".rb") in E. congruence.
    + destruct (MatchString re_test_prefix (Filename s)) eqn:E';
        [|reflexivity].
      apply MatchString_inv in E'. destruct E' as [a [m [Hs Hm]]].
      apply matchEnd_test_prefix in Hm. destruct Hm as [word [_ ->]].
      rewrite Hs in H. rewrite <- !append_assoc in H.
      rewrite Contains_append_r in H; [discriminate | reflexivity].
Qed.

(** X14. A path without [.rb] whose text does not contain the first source
    directory of the layout ([lib] for a gem, [app] otherwise) resolves to
    itself: it is not a test file, the first candidate of
    [findAlternateTest] is the path unchanged, and when the file exists that
    is what [AlternateFile] returns. *)
Theorem path_without_extension_resolves_to_itself
  (p : Project) (filename : string) (w : FS) :
  Contains filename ".rb" = false ->
  Contains filename (if isGem p w then "lib" else "app") = false ->
  exists_in w (Join [Root p; filename]) = true ->
  fst (AlternateFile (NewSourceFile filename p) w) = Join [Root p; filename].
Proof.
  intros Hrb Hdir Hex.
  rewrite AlternateFile_run, isTestFile_needs_extension by exact Hrb.
  rewrite findAlternateTest_first. unfold testCandidates, IsController.
  cbn [Filename Project_ NewSourceFile].
  assert (Hc : HasSuffix filename "_controller.rb" = false).
  { destruct (HasSuffix filename "_controller.rb") eqn:E; [|reflexivity].
    apply (HasSuffix_Contains _ "_controller" ".rb") in E. congruence. }
  rewrite Hc, andb_false_r. cbn [app].
  rewrite TestPaths_run, SrcPaths_run.
  unfold generalTestCandidates.
  destruct (isGem p w), (isSpec p w); cbn [flat_map map app];
    rewrite firstExisting_cons; unfold testCandidate;
    cbn [String.eqb Ascii.eqb Bool.eqb];
    rewrite (Replace1_absent filename _ _ Hdir),
            (Replace1_absent filename _ _ Hrb), Hex;
    reflexivity.
Qed.

Lemma path_without_extension_resolves_to_itself_witness :
  Contains "README.md" ".rb" = false /\
  isGem proj fsControllers = false /\
  Contains "README.md" "app" = false /\
  fst (AlternateFile (NewSourceFile "README.md" proj)
         ("/proj/README.md" :: fsControllers))
  = "/proj/README.md".
Proof.
  refine (conj eq_refl (conj eq_refl (conj eq_refl _))).
  exact (path_without_extension_resolves_to_itself proj "README.md"
           ("/proj/README.md" :: fsControllers) eq_refl eq_refl eq_refl).
Defined.

(** ** Detecting the conventions *)

Lemma filter_found {A} (f : A -> bool) (l : list A) :
  (0 <? List.length (filter f l))%nat = existsb f l.
Proof.
  induction l as [|x l IH]; [reflexivity|]. simpl.
  destruct (f x); [reflexivity | exact IH].
Qed.

Lemma Glob_found (clue : string) (w : FS) :
  (let (matches, err) := fst (Glob clue w) in
   match err with
   | Some _ => false
   | None => (0 <? List.length matches)%nat
   end) = clueFound w clue.
Proof.
  unfold Glob, clueFound. destruct (badPattern clue); [reflexivity|].
  cbn [fst negb andb]. apply filter_found.
Qed.

Lemma IsGem_found (p : Project) (w : FS) :
  isGem p w = clueFound w (Join [Root p; "*.gemspec"]).
Proof.
  unfold isGem, IsGem. rewrite bind_run by apply readonly_Glob.
  rewrite <- Glob_found.
  destruct (fst (Glob (Join [Root p; "*.gemspec"]) w)) as [matches [e|]];
    reflexivity.
Qed.

Lemma IsSpec_found (p : Project) (w : FS) :
  isSpec p w = existsb (clueFound w) (specClues p).
Proof.
  unfold isSpec, IsSpec. rewrite bind_run by ro.
  rewrite forRange_run by ro.
  induction (specClues p) as [|clue clues IH]; [reflexivity|].
  cbn [firstSome existsb]. rewrite bind_run by apply readonly_Glob.
  rewrite <- Glob_found.
  destruct (fst (Glob clue w)) as [matches [e|]].
  - exact IH.
  - destruct (0 <? List.length matches)%nat; [reflexivity | exact IH].
Qed.

Lemma clueFound_monotone (w w' : FS) (clue : string) :
  incl w w' -> clueFound w clue = true -> clueFound w' clue = true.
Proof.
  unfold clueFound. intros Hincl H.
  apply andb_true_iff in H. destruct H as [Hbad H].
  rewrite Hbad. apply existsb_exists in H. destruct H as [x [Hin Hx]].
  apply existsb_exists. exists x. split; [now apply Hincl | exact Hx].
Qed.

(** X15. Detection only looks for what is there: when every name of one
    file system exists in another, a project that [IsGem] or [IsSpec]
    recognises in the first is recognised in the second.  New files can
    turn a project into a gem or an RSpec project, never the reverse. *)
Theorem detection_is_monotone (p : Project) (w w' : FS) :
  incl w w' ->
  (isGem p w = true -> isGem p w' = true) /\
  (isSpec p w = true -> isSpec p w' = true).
Proof.
  intro Hincl. split.
  - rewrite !IsGem_found. now apply clueFound_monotone.
  - rewrite !IsSpec_found. intro H.
    apply existsb_exists in H. destruct H as [clue [Hin Hclue]].
    apply existsb_exists. exists clue. split; [exact Hin|].
    now apply (clueFound_monotone w w').
Qed.

Lemma detection_is_monotone_witness :
  incl fsGemRootFile fsGemRootFileShadowed /\
  isGem proj fsGemRootFile = true /\
  isGem proj fsGemRootFileShadowed = true /\
  isSpec proj fsGemRootFileShadowed = true.
Proof.
  assert (Hincl : incl fsGemRootFile fsGemRootFileShadowed)
    by (intros x Hx; now right).
  refine (conj Hincl (conj eq_refl _)).
  destruct (detection_is_monotone proj _ _ Hincl) as [Hgem Hspec].
  split; [apply Hgem | apply Hspec]; reflexivity.
Defined.

Section GlobFacts.

#[local] Arguments prefix : simpl never.
#[local] Arguments String.eqb : simpl never.

Lemma Match_star (pattern name : string) :
  Match (String "*" pattern) name =
  Match pattern name ||
  match name with
  | EmptyString => false
  | String c name' =>
      negb (c =? Separator)%char && Match (String "*" pattern) name'
  end.
Proof. destruct name; reflexivity. Qed.

Lemma plainName_append (a b : string) :
  plainName (a ++ b) = plainName a && plainName b.
Proof.
  induction a as [|c a IH]; [reflexivity|]. simpl.
  now rewrite IH, andb_assoc.
Qed.

(** A pattern that starts with plain bytes matches the names that start
    with these bytes and go on as the rest of the pattern says. *)
Lemma Match_plain (lit pattern name : string) :
  plainName lit = true ->
  Match (lit ++ pattern) name =
  match stripPrefix lit name with
  | Some rest => Match pattern rest
  | None => false
  end.
Proof.
  revert name. induction lit as [|c lit IH]; intros name H; [reflexivity|].
  simpl in H. apply andb_true_iff in H. destruct H as [Hc H].
  apply negb_true_iff in Hc.
  apply orb_false_iff in Hc. destruct Hc as [Hc _].
  apply orb_false_iff in Hc. destruct Hc as [Hc _].
  apply orb_false_iff in Hc. destruct Hc as [Hstar Hany].
  cbn [append Match]. rewrite Hstar, Hany.
  destruct name as [|x name]; [reflexivity|].
  cbn [stripPrefix]. rewrite (Ascii.eqb_sym c x).
  destruct (x =? c)%char; [now apply IH | reflexivity].
Qed.

Lemma Match_plain_all (lit name : string) :
  plainName lit = true -> Match lit name = (name =? lit).
Proof.
  revert name. induction lit as [|c lit IH]; intros name H.
  - now destruct name.
  - simpl in H. apply andb_true_iff in H. destruct H as [Hc H].
    apply negb_true_iff in Hc.
    apply orb_false_iff in Hc. destruct Hc as [Hc _].
    apply orb_false_iff in Hc. destruct Hc as [Hc _].
    apply orb_false_iff in Hc. destruct Hc as [Hstar Hany].
    cbn [Match]. rewrite Hstar, Hany.
    destruct name as [|x name]; [reflexivity|].
    change (String x name =? String c lit)
      with ((x =? c)%char && (name =? lit)).
    now rewrite IH.
Qed.

(** [*] and then plain bytes without separator: a name without separator
    that ends with these bytes. *)
Lemma Match_star_suffix (suf name : string) :
  plainName suf = true -> Contains suf "/" = false ->
  Match (String "*" suf) name = negb (Contains name "/") && HasSuffix name suf.
Proof.
  intros Hplain Hsuf. induction name as [|c name IH].
  - rewrite Match_star, Match_plain_all by exact Hplain.
    cbn [Contains HasSuffix]. change (prefix "/" "") with false.
    now rewrite !orb_false_r.
  - rewrite Match_star, Match_plain_all, IH by exact Hplain.
    cbn [HasSuffix]. rewrite Contains_slash_cons.
    destruct (String c name =? suf) eqn:E.
    + apply String.eqb_eq in E. rewrite <- E in Hsuf.
      rewrite Contains_slash_cons in Hsuf. now rewrite Hsuf.
    + cbn [orb]. now rewrite negb_orb, andb_assoc.
Qed.

Lemma Contains_char_plain (s : string) :
  plainName s = true ->
  Contains s "[" = false /\ Contains s backslash = false.
Proof.
  induction s as [|c s IH]; intro H; [now split|].
  simpl in H. apply andb_true_iff in H. destruct H as [Hc H].
  apply negb_true_iff in Hc.
  apply orb_false_iff in Hc. destruct Hc as [Hc Hback].
  apply orb_false_iff in Hc. destruct Hc as [_ Hbracket].
  destruct (IH H) as [IH1 IH2]. unfold backslash in *.
  cbn [Contains]. rewrite !prefix_char, IH1, IH2, Hbracket, Hback.
  now split.
Qed.

End GlobFacts.

Lemma Contains_char_append (a b : string) (c : ascii) :
  Contains (a ++ b) (String c "") =
  Contains a (String c "") || Contains b (String c "").
Proof.
  induction a as [|x a IH].
  - cbn [append Contains]. now destruct b.
  - cbn [append Contains]. rewrite !prefix_char, IH. apply orb_assoc.
Qed.

Lemma existsb_pointwise {A} (f g : A -> bool) (l : list A) :
  (forall x, f x = g x) -> existsb f l = existsb g l.
Proof.
  intro H. induction l as [|x l IH]; [reflexivity|].
  simpl. now rewrite H, IH.
Qed.

(** X16. For a project whose root is a clean path without any byte that
    [filepath.Match] gives a meaning to, [IsGem] answers true exactly when
    some existing name is the root, a separator, and a name without
    separator that ends with [.gemspec]: only direct children of the root
    count, a gemspec further down does not make a gem. *)
Theorem IsGem_looks_at_direct_children (p : Project) (w : FS) :
  plainName (Root p) = true ->
  Join [Root p; "*.gemspec"] = Root p ++ "/*.gemspec" ->
  isGem p w = existsb (isChildGemspec (Root p)) w.
Proof.
  intros Hplain Hjoin. rewrite IsGem_found, Hjoin. unfold clueFound.
  destruct (Contains_char_plain _ Hplain) as [Hbr Hbs].
  unfold badPattern, backslash in *.
  rewrite !Contains_char_append, Hbr, Hbs. cbn [orb negb andb].
  match goal with
  | |- negb ?b && _ = _ => replace b with false by reflexivity
  end.
  cbn [negb andb]. apply existsb_pointwise. intro name.
  unfold isChildGemspec.
  change (Root p ++ "/*.gemspec") with (Root p ++ "/" ++ "*.gemspec").
  rewrite <- append_assoc, Match_plain
    by (rewrite plainName_append, Hplain; reflexivity).
  destruct (stripPrefix (Root p ++ "/") name) as [base|]; [|reflexivity].
  now apply Match_star_suffix.
Qed.

Lemma IsGem_looks_at_direct_children_witness :
  plainName (Root proj) = true /\
  isGem proj fsRspecGem = true /\
  isGem proj ["/proj"; "/proj/vendor"; "/proj/vendor/other.gemspec"] = false.
Proof.
  split; [reflexivity|]. split.
  - rewrite (IsGem_looks_at_direct_children proj fsRspecGem eq_refl eq_refl).
    reflexivity.
  - rewrite (IsGem_looks_at_direct_children proj _ eq_refl eq_refl).
    reflexivity.
Defined.

(** ** The general rule from test to source *)

(** X17. In the general rule of [findAlternateSrc] (the special case of
    request specs does not apply, or its candidate does not exist) the
    candidates are tried with the source directories in the outer loop, the
    test directories in the middle one and the patterns of the convention
    in the inner one; the first candidate that exists is returned, resolved
    against the root, and when no candidate exists the result is the empty
    string. *)
Theorem source_search_order
  (s : SourceFile) (w : FS) (s1 s2 t1 t2 : string) :
  let root := Root (Project_ s) in
  let cand srcDir testDir :=
    map (srcCandidate (Filename s) srcDir testDir)
        (testRegexes (Project_ s) w) in
  let cands := (cand s1 t1 ++ cand s1 t2 ++ cand s2 t1 ++ cand s2 t2)%list in
  srcPaths (Project_ s) w = [s1; s2] ->
  testPaths (Project_ s) w = [t1; t2] ->
  IsRequestSpec s = false \/
  exists_in w (Join [root; controllerCandidate (Filename s)]) = false ->
  (forall pre c post,
      cands = (pre ++ c :: post)%list ->
      (forall x, In x pre -> exists_in w (Join [root; x]) = false) ->
      exists_in w (Join [root; c]) = true ->
      fst (findAlternateSrc s w) = Join [root; c]) /\
  ((forall c, In c cands -> exists_in w (Join [root; c]) = false) ->
   fst (findAlternateSrc s w) = "").
Proof.
  intros root cand cands Hs Ht Hgen.
  assert (Hrun : fst (findAlternateSrc s w) = firstExisting root w cands).
  { rewrite findAlternateSrc_first. unfold srcCandidates.
    rewrite Hs, Ht. unfold generalSrcCandidates.
    cbn [flat_map]. rewrite !app_nil_r, <- !app_assoc.
    fold (cand s1 t1) (cand s1 t2) (cand s2 t1) (cand s2 t2). fold cands.
    destruct Hgen as [Hc | Hex].
    - now rewrite Hc.
    - destruct (IsRequestSpec s); [|reflexivity].
      cbn [app]. rewrite firstExisting_cons. fold root. now rewrite Hex. }
  rewrite Hrun. split.
  - intros pre c post Hsplit Hpre Hc. rewrite Hsplit.
    now apply firstExisting_found.
  - apply firstExisting_none.
Qed.

Lemma source_search_order_witness :
  let s := NewSourceFile "test/lib/user_test.rb" proj in
  srcPaths proj fsMinitest = ["app"; "lib"] /\
  testPaths proj fsMinitest = ["test"; "test/lib"] /\
  testRegexes proj fsMinitest = [re_test; re_test_prefix] /\
  fst (findAlternateSrc s fsMinitest) = "/proj/lib/user.rb".
Proof.
  intro s.
  refine (conj eq_refl (conj eq_refl (conj eq_refl _))).
  refine (proj1 (source_search_order s fsMinitest "app" "lib" "test"
                   "test/lib" eq_refl eq_refl (or_introl eq_refl))
            [ "app/lib/user.rb"; "app/lib/user_test.rb";
              "app/user.rb"; "app/user_test.rb";
              "lib/lib/user.rb"; "lib/lib/user_test.rb" ]
            "lib/user.rb" [ "lib/user_test.rb" ] eq_refl _ eq_refl).
  intros x Hx.
  destruct Hx as [<- | [<- | [<- | [<- | [<- | [<- | []]]]]]]; reflexivity.
Defined.

(** ** From a source file to the test named after it *)

(** X18. A source file finds the test named after it.  Let the source path
    be a non-empty source directory of the convention, then any rest, then
    [.rb], with no other [.rb] in the test path it gives, and let it be
    classified as a source file.  If the test file (a test directory of the
    convention, the same rest, the test suffix) exists, and every candidate
    of the source path that exists resolves to the same path as that test
    file, then [AlternateFile] on the source path returns the test file. *)
Theorem source_file_resolves_to_its_test
  (p : Project) (w : FS) (srcDir testDir body : string) :
  let source := srcDir ++ body ++ ".rb" in
  let test := testDir ++ body ++ testSuffix p w in
  srcDir <> "" ->
  In srcDir (srcPaths p w) ->
  In testDir (testPaths p w) ->
  Contains (testDir ++ body) ".rb" = false ->
  isTestFile (NewSourceFile source p) w = false ->
  exists_in w (Join [Root p; test]) = true ->
  (forall c, In c (testCandidates (NewSourceFile source p) w) ->
             exists_in w (Join [Root p; c]) = true ->
             Join [Root p; c] = Join [Root p; test]) ->
  fst (AlternateFile (NewSourceFile source p) w) = Join [Root p; test].
Proof.
  intros source test Hne Hsrc Htest Hrb Hclass Hex Honly.
  rewrite AlternateFile_run, Hclass, findAlternateTest_first.
  cbn [Project_ NewSourceFile].
  apply firstExisting_unique; [|exact Honly].
  exists test. split; [|exact Hex].
  unfold testCandidates. apply in_or_app. right.
  unfold generalTestCandidates. cbn [Project_ Filename NewSourceFile].
  apply in_flat_map. exists testDir. split; [exact Htest|].
  apply in_map_iff. exists srcDir. split; [|exact Hsrc].
  unfold testCandidate. apply String.eqb_neq in Hne. rewrite Hne.
  unfold source. rewrite Replace1_at_start.
  rewrite <- append_assoc, Replace1_extension by exact Hrb.
  apply append_assoc.
Qed.

Lemma source_file_resolves_to_its_test_witness :
  In "lib" (srcPaths proj fsMinitest) /\
  In "test/lib" (testPaths proj fsMinitest) /\
  Contains ("test/lib" ++ "/user") ".rb" = false /\
  isTestFile (NewSourceFile "lib/user.rb" proj) fsMinitest = false /\
  fst (AlternateFile (NewSourceFile "lib/user.rb" proj) fsMinitest)
  = "/proj/test/lib/user_test.rb".
Proof.
  assert (Hs : In "lib" (srcPaths proj fsMinitest)) by (right; now left).
  assert (Ht : In "test/lib" (testPaths proj fsMinitest))
    by (right; now left).
  refine (conj Hs (conj Ht (conj eq_refl (conj eq_refl _)))).
  refine (source_file_resolves_to_its_test proj fsMinitest "lib" "test/lib"
            "/user" _ Hs Ht eq_refl eq_refl eq_refl _); [discriminate|].
  intros c Hc Hex.
  destruct Hc as [<- | [<- | [<- | [<- | []]]]];
    first [reflexivity | discriminate Hex].
Defined.

(** ** The markers of RSpec *)

Lemma clueFound_plain (w : FS) (clue : string) :
  plainName clue = true -> clueFound w clue = exists_in w clue.
Proof.
  intro Hplain. unfold clueFound, exists_in.
  destruct (Contains_char_plain _ Hplain) as [Hbr Hbs].
  unfold badPattern. rewrite Hbr, Hbs. cbn [orb negb andb].
  apply existsb_pointwise. intro name.
  rewrite Match_plain_all by exact Hplain. apply String.eqb_sym.
Qed.

(** X19. Either marker makes an RSpec project: when [.rspec] or
    [spec/spec_helper.rb] exists under the root (and its path has no byte
    that [filepath.Match] gives a meaning to), [IsSpec] answers true, the
    test directories are [spec] and [spec/lib], the test suffix is
    [_spec.rb] and the only pattern for test files is [_spec\.rb$]. *)
Theorem rspec_markers_suffice (p : Project) (w : FS) (marker : string) :
  marker = Join [Root p; ".rspec"] \/
  marker = Join [Root p; "spec"; "spec_helper.rb"] ->
  plainName marker = true ->
  exists_in w marker = true ->
  isSpec p w = true /\
  testPaths p w = ["spec"; "spec/lib"] /\
  testSuffix p w = "_spec.rb" /\
  testRegexes p w = [re_spec].
Proof.
  intros Hmarker Hplain Hex.
  assert (Hspec : isSpec p w = true).
  { rewrite IsSpec_found. apply existsb_exists. exists marker. split.
    - unfold specClues. destruct Hmarker as [-> | ->].
      + right. now left.
      + now left.
    - now rewrite clueFound_plain. }
  rewrite TestPaths_run, TestSuffix_run, TestRegexes_run, Hspec.
  repeat split.
Qed.

Lemma rspec_markers_suffice_witness :
  plainName "/proj/.rspec" = true /\
  exists_in fsRspecGem "/proj/.rspec" = true /\
  isSpec proj fsRspecGem = true.
Proof.
  refine (conj eq_refl (conj eq_refl _)).
  exact (proj1 (rspec_markers_suffice proj fsRspecGem "/proj/.rspec"
                  (or_introl eq_refl) eq_refl eq_refl)).
Defined.
